(** * VGT-Pipeline: the statistics-report parser of [src/pipeline.py]

    A shallow embedding of [Pipeline.parse_stats_output] and
    [Pipeline.calculate_mean_rms] together with the pieces of the Python
    runtime they call ([re.search] on the pattern fragment the source uses,
    [str.strip], [str.lower], [int], [float], [str.split], [os.path.join],
    [json.dump]).

    Modelling scope.
    - A Python [str] is a [list ascii]: the code points 0..255.  On that
      range [\s] and [str.isspace] are the characters 9-13, 28-32, 133 and
      160, and [\d] is ['0'..'9'].
    - [int] is arbitrary precision ([Z]); [int(s)] refuses a literal of
      more than 4300 digits, the interpreter's default limit, which the
      source does not change.
    - A finite [float] is represented by the exact rational its literal
      denotes (type [Q], reduced); rounding to binary64 is not modelled.
    - Side effects of [calculate_mean_rms] are a trace of events
      ([print] and file writes); the external shell command is represented
      by its captured standard output, and the file system by what it
      answers to each attempt to write a file, both inputs of the model. *)

From Stdlib Require Import List Ascii String ZArith QArith Lia Bool Arith.
From Stdlib Require Import DecimalString.
Import ListNotations.

Local Close Scope Q_scope.
Local Open Scope char_scope.
Local Open Scope list_scope.
Local Open Scope nat_scope.

(** ** Text *)

Definition text := list ascii.

(** A string literal of the source as a [text]. *)
Definition str (s : string) : text := list_ascii_of_string s.

Definition code (c : ascii) : nat := nat_of_ascii c.

(** [Py_UNICODE_ISSPACE] restricted to the code points below 256. *)
Definition is_space (c : ascii) : bool :=
  let n := code c in
  ((9 <=? n) && (n <=? 13)) || ((28 <=? n) && (n <=? 32))
  || (n =? 133) || (n =? 160).

(** [\d]: the decimal digits below code point 256. *)
Definition is_digit (c : ascii) : bool :=
  let n := code c in (48 <=? n) && (n <=? 57).

Definition digit_val (c : ascii) : Z := Z.of_nat (code c) - 48.

(** A character that can open the digits of a number. *)
Definition opens_number (c : ascii) : bool := is_digit c || Ascii.eqb c ".".

(** [str.lower] on one character (Latin-1 range). *)
Definition lower_char (c : ascii) : ascii :=
  let n := code c in
  if ((65 <=? n) && (n <=? 90))
     || ((192 <=? n) && (n <=? 222) && negb (n =? 215))
  then ascii_of_nat (n + 32) else c.

Definition lower (s : text) : text := map lower_char s.

(** [c in s] for a one-character [c]. *)
Definition contains (c : ascii) (s : text) : bool :=
  existsb (Ascii.eqb c) s.

Fixpoint lstrip (s : text) : text :=
  match s with
  | c :: s' => if is_space c then lstrip s' else s
  | [] => []
  end.

(** [str.strip()] with no argument. *)
Definition strip (s : text) : text := rev (lstrip (rev (lstrip s))).

(** No character of [s] is whitespace. *)
Definition no_space (s : text) : bool :=
  forallb (fun c => negb (is_space c)) s.

(** [s.startswith(p)]. *)
Fixpoint starts_with (p s : text) : bool :=
  match p, s with
  | [], _ => true
  | a :: p', b :: s' => Ascii.eqb a b && starts_with p' s'
  | _ :: _, [] => false
  end.

(** [s.find(p)], counting from [i]: the first position where [p] starts. *)
Fixpoint find_from (p : text) (i : nat) (s : text) : option nat :=
  if starts_with p s then Some i
  else
    match s with
    | [] => None
    | _ :: s' => find_from p (S i) s'
    end.

Definition find (p s : text) : option nat := find_from p 0 s.

(** [p in s] for a substring [p]. *)
Definition occurs (p s : text) : bool :=
  match find p s with
  | Some _ => true
  | None => false
  end.

(** ** The fragment of [re] used by the patterns

    Literal characters, [.], escapes ([\s], [\d], escaped punctuation),
    bracketed sets of such items, the greedy quantifier [+] on a
    one-character matcher, and one capturing group. *)

Module Re.

Inductive citem : Type :=
| CChar (c : ascii)
| CDigit
| CSpace.

(** One-character matchers. *)
Inductive single : Type :=
| One (c : ascii)
| Dot
| InSet (cs : list citem).

Inductive node : Type :=
| Single (x : single)
| Repeat1 (x : single)
| GroupOpen
| GroupClose.

Definition citem_matches (i : citem) (c : ascii) : bool :=
  match i with
  | CChar a => Ascii.eqb a c
  | CDigit => is_digit c
  | CSpace => is_space c
  end.

Definition single_matches (x : single) (c : ascii) : bool :=
  match x with
  | One a => Ascii.eqb a c
  | Dot => negb (Ascii.eqb c "010")
  | InSet cs => existsb (fun i => citem_matches i c) cs
  end.

(** *** Reading a pattern string *)

Inductive mode : Type :=
| Normal
| Escape
| InClass (cs : list citem)
| InClassEscape (cs : list citem).

Record pstate : Type := mkP {
  p_out : list node;          (* finished nodes, last first *)
  p_pend : option single;     (* last matcher, a [+] may still follow *)
  p_mode : mode
}.

Definition flush (st : pstate) : list node :=
  match p_pend st with
  | Some x => Single x :: p_out st
  | None => p_out st
  end.

Definition is_alnum (c : ascii) : bool :=
  let n := code c in
  is_digit c || ((65 <=? n) && (n <=? 90)) || ((97 <=? n) && (n <=? 122)).

(** The meaning of [\c]; [None] for the escapes outside the fragment. *)
Definition escape_item (c : ascii) : option citem :=
  if Ascii.eqb c "s" then Some CSpace
  else if Ascii.eqb c "d" then Some CDigit
  else if is_alnum c || (128 <=? code c) then None
  else Some (CChar c).

Definition item_single (i : citem) : single :=
  match i with
  | CChar c => One c
  | _ => InSet [i]
  end.

Definition unsupported (c : ascii) : bool :=
  existsb (Ascii.eqb c) (str "*?{}|^$]").

Definition pstep (st : pstate) (c : ascii) : option pstate :=
  match p_mode st with
  | Normal =>
      if Ascii.eqb c "\" then Some (mkP (flush st) None Escape)
      else if Ascii.eqb c "[" then Some (mkP (flush st) None (InClass []))
      else if Ascii.eqb c "+" then
        match p_pend st with
        | Some x => Some (mkP (Repeat1 x :: p_out st) None Normal)
        | None => None
        end
      else if Ascii.eqb c "(" then Some (mkP (GroupOpen :: flush st) None Normal)
      else if Ascii.eqb c ")" then Some (mkP (GroupClose :: flush st) None Normal)
      else if Ascii.eqb c "." then Some (mkP (flush st) (Some Dot) Normal)
      else if unsupported c then None
      else Some (mkP (flush st) (Some (One c)) Normal)
  | Escape =>
      match escape_item c with
      | Some i => Some (mkP (p_out st) (Some (item_single i)) Normal)
      | None => None
      end
  | InClass cs =>
      if Ascii.eqb c "]" then
        match cs with
        | [] => None
        | _ => Some (mkP (p_out st) (Some (InSet (rev cs))) Normal)
        end
      else if Ascii.eqb c "\" then Some (mkP (p_out st) None (InClassEscape cs))
      else if Ascii.eqb c "^" || Ascii.eqb c "[" then None
      else if Ascii.eqb c "-" then
        match cs with
        | [] => Some (mkP (p_out st) None (InClass [CChar c]))
        | _ => None
        end
      else Some (mkP (p_out st) None (InClass (CChar c :: cs)))
  | InClassEscape cs =>
      match escape_item c with
      | Some i => Some (mkP (p_out st) None (InClass (i :: cs)))
      | None => None
      end
  end.

Fixpoint pfold (st : pstate) (s : text) : option pstate :=
  match s with
  | [] => Some st
  | c :: s' =>
      match pstep st c with
      | Some st' => pfold st' s'
      | None => None
      end
  end.

(** [re.compile]: [None] when the pattern leaves the fragment. *)
Definition compile (pattern : text) : option (list node) :=
  match pfold (mkP [] None Normal) pattern with
  | Some st =>
      match p_mode st with
      | Normal => Some (rev (flush st))
      | _ => None
      end
  | None => None
  end.

(** *** Matching: greedy, with backtracking *)

(** Group 1 while a match is attempted: whether it is open, and what it
    has captured so far (last character first). *)
Record gstate : Type := mkG { g_open : bool; g_text : text }.

Definition consume (c : ascii) (g : gstate) : gstate :=
  if g_open g then mkG true (c :: g_text g) else g.

(** What group 1 holds after the characters of [a] went by. *)
Definition consumed (a : text) (g : gstate) : gstate :=
  fold_left (fun g c => consume c g) a g.

Section Matcher.
Context {R : Type}.

(** [x*] then [k]: the longest run first, shorter ones when [k] fails. *)
Fixpoint star (x : single) (k : text -> gstate -> option R)
    (s : text) (g : gstate) : option R :=
  match s with
  | c :: s' =>
      if single_matches x c then
        match star x k s' (consume c g) with
        | Some r => Some r
        | None => k s g
        end
      else k s g
  | [] => k s g
  end.

Definition plus (x : single) (k : text -> gstate -> option R)
    (s : text) (g : gstate) : option R :=
  match s with
  | c :: s' =>
      if single_matches x c then star x k s' (consume c g) else None
  | [] => None
  end.

Fixpoint run (p : list node) (k : text -> gstate -> option R)
    (s : text) (g : gstate) : option R :=
  match p with
  | [] => k s g
  | Single x :: p' =>
      match s with
      | c :: s' =>
          if single_matches x c then run p' k s' (consume c g) else None
      | [] => None
      end
  | Repeat1 x :: p' => plus x (run p' k) s g
  | GroupOpen :: p' => run p' k s (mkG true [])
  | GroupClose :: p' => run p' k s (mkG false (g_text g))
  end.
End Matcher.

(** A successful match: where it starts and [group(1)]. *)
Record rmatch : Type := mkM { m_start : nat; m_group1 : text }.

(** The pattern applied at the head of [s]. *)
Definition match_here (p : list node) (s : text) : option text :=
  run p (fun _ g => Some (rev (g_text g))) s (mkG false []).

(** Every start position from [i] on, leftmost first. *)
Fixpoint search_from (p : list node) (i : nat) (s : text) : option rmatch :=
  match match_here p s with
  | Some t => Some (mkM i t)
  | None =>
      match s with
      | [] => None
      | _ :: s' => search_from p (S i) s'
      end
  end.

(** [re.search(pattern, s)] for a compiled pattern. *)
Definition search (p : list node) (s : text) : option rmatch :=
  search_from p 0 s.

End Re.

(** ** Numbers: [int] and [float] applied to a string *)

Inductive pyfloat : Type :=
| Finite (q : Q)
| Infinity (negative : bool)
| NaN.

Inductive number : Type :=
| PyInt (z : Z)
| PyFloat (f : pyfloat).

Fixpoint text_eqb (a b : text) : bool :=
  match a, b with
  | [], [] => true
  | x :: a', y :: b' => Ascii.eqb x y && text_eqb a' b'
  | _, _ => false
  end.

(** The longest prefix whose characters satisfy [f], and the rest. *)
Fixpoint span (f : ascii -> bool) (s : text) : text * text :=
  match s with
  | c :: s' =>
      if f c then let '(a, b) := span f s' in (c :: a, b) else ([], s)
  | [] => ([], [])
  end.

(** [digitpart ::= digit (["_"] digit)*]: the digits, underscores removed. *)
Fixpoint digitpart_from (after_digit : bool) (s : text) : option text :=
  match s with
  | [] => if after_digit then Some [] else None
  | c :: s' =>
      if is_digit c then option_map (cons c) (digitpart_from true s')
      else if Ascii.eqb c "_" && after_digit then digitpart_from false s'
      else None
  end.

Definition digitpart (s : text) : option text := digitpart_from false s.

Definition decimal_value (ds : text) : Z :=
  fold_left (fun a c => (a * 10 + digit_val c)%Z) ds 0%Z.

(** An optional sign: whether it is a minus, and what follows. *)
Definition split_sign (s : text) : bool * text :=
  match s with
  | c :: s' =>
      if Ascii.eqb c "-" then (true, s')
      else if Ascii.eqb c "+" then (false, s')
      else (false, s)
  | [] => (false, [])
  end.

Definition signed (negative : bool) (z : Z) : Z :=
  if negative then (- z)%Z else z.

(** [sys.get_int_max_str_digits()], at its default. *)
Definition int_max_str_digits : nat := 4300.

(** [int(s)], base 10; [None] stands for [ValueError]: a string that is
    no integer literal, or one of more digits than the limit allows
    (underscores do not count, leading zeros do). *)
Definition py_int (s : text) : option Z :=
  let '(neg, body) := split_sign (strip s) in
  match digitpart body with
  | Some ds =>
      if List.length ds <=? int_max_str_digits
      then Some (signed neg (decimal_value ds))
      else None
  | None => None
  end.

Definition pow10 (e : Z) : Q :=
  if (0 <=? e)%Z then inject_Z (10 ^ e) else (1 # Z.to_pos (10 ^ (- e)))%Q.

(** The rational [m * 10^e], reduced. *)
Definition decimal_Q (m e : Z) : Q := Qred (inject_Z m * pow10 e)%Q.

Definition is_dp_char (c : ascii) : bool := is_digit c || Ascii.eqb c "_".

Definition opt_digitpart (s : text) : option text :=
  match s with
  | [] => Some []
  | _ => digitpart s
  end.

(** [exponent ::= ("e" | "E") [sign] digitpart], or nothing. *)
Definition exponent (s : text) : option Z :=
  match s with
  | [] => Some 0%Z
  | c :: s' =>
      if Ascii.eqb c "e" || Ascii.eqb c "E" then
        let '(neg, body) := split_sign s' in
        match digitpart body with
        | Some ds => Some (signed neg (decimal_value ds))
        | None => None
        end
      else None
  end.

(** [float(s)]; [None] stands for [ValueError].
    [number ::= [digitpart] "." digitpart | digitpart ["."]]. *)
Definition py_float (s : text) : option pyfloat :=
  let '(neg, body) := split_sign (strip s) in
  let lb := lower body in
  if text_eqb lb (str "inf") || text_eqb lb (str "infinity")
  then Some (Infinity neg)
  else if text_eqb lb (str "nan") then Some NaN
  else
    let '(ip, r1) := span is_dp_char body in
    let '(fp, r2) :=
      match r1 with
      | c :: r => if Ascii.eqb c "." then span is_dp_char r else ([], r1)
      | [] => ([], r1)
      end in
    match opt_digitpart ip, opt_digitpart fp, exponent r2 with
    | Some id, Some fd, Some e =>
        match id ++ fd with
        | [] => None
        | m =>
            Some (Finite (decimal_Q (signed neg (decimal_value m))
                                    (e - Z.of_nat (List.length fd))))
        end
    | _, _, _ => None
    end.

(** ** Exceptions and results *)

Inductive exn : Type :=
| ValueError_int (literal : text)     (* int() refused the literal *)
| ValueError_float (literal : text)   (* could not convert string to float *)
| ValueError_blocks                   (* not enough stats blocks found *)
| PatternError (pattern : text)       (* pattern outside the modelled fragment *)
| OSError (path : text).              (* the file could not be opened or written *)

Inductive result (A : Type) : Type :=
| Ok (a : A)
| Raise (e : exn).
Arguments Ok {A} a.
Arguments Raise {A} e.

Definition bind {A B : Type} (r : result A) (f : A -> result B) : result B :=
  match r with
  | Ok a => f a
  | Raise e => Raise e
  end.

Notation "x <- r ;; k" := (bind r (fun x => k))
  (at level 61, r at next level, right associativity).

(** ** Dictionaries: insertion-ordered, as Python's [dict] *)

Definition dict := list (text * number).

Fixpoint dict_get (k : text) (d : dict) : option number :=
  match d with
  | [] => None
  | (k', v) :: d' => if text_eqb k k' then Some v else dict_get k d'
  end.

(** [d[k] = v]: an existing key keeps its place, a new one goes last. *)
Fixpoint dict_set (k : text) (v : number) (d : dict) : dict :=
  match d with
  | [] => [(k, v)]
  | (k', v') :: d' =>
      if text_eqb k k' then (k, v) :: d' else (k', v') :: dict_set k v d'
  end.

Definition keys (d : dict) : list text := map fst d.

(** ** [Pipeline.parse_stats_output] *)

(** The [patterns] dictionary, in its declaration order. *)
Definition patterns : list (text * text) :=
  [ (str "Pixel sum", str "Pixel sum\s+:\s+([-\d\.eE\+]+)");
    (str "Pixel mean", str "Pixel mean\s+:\s+([-\d\.eE\+]+)");
    (str "Standard deviation", str "Standard deviation\s+:\s+([-\d\.eE\+]+)");
    (str "Skewness", str "Skewness\s+:\s+([-\d\.eE\+]+)");
    (str "Kurtosis", str "Kurtosis\s+:\s+([-\d\.eE\+]+)");
    (str "Minimum pixel value", str "Minimum pixel value\s+:\s+([-\d\.eE\+]+)");
    (str "Maximum pixel value", str "Maximum pixel value\s+:\s+([-\d\.eE\+]+)");
    (str "Total number of pixels", str "Total number of pixels\s+:\s+(\d+)");
    (str "Number of pixels used", str "Number of pixels used\s+:\s+(\d+)");
    (str "No. of pixels excluded", str "No\. of pixels excluded\s+:\s+(\d+)") ].

(** [re.search(pattern, s)] on a pattern string. *)
Definition re_search (pattern s : text) : result (option Re.rmatch) :=
  match Re.compile pattern with
  | Some p => Ok (Re.search p s)
  | None => Raise (PatternError pattern)
  end.

(** Lines 80-83: the typed value of a captured token. *)
Definition convert (value : text) : result number :=
  if contains "." value || contains "e" (lower value) then
    match py_float value with
    | Some f => Ok (PyFloat f)
    | None => Raise (ValueError_float value)
    end
  else
    match py_int value with
    | Some z => Ok (PyInt z)
    | None => Raise (ValueError_int value)
    end.

(** One iteration of the loop over [patterns.items()]. *)
Definition parse_field (stats_output : text) (stats_dict : dict)
    (item : text * text) : result dict :=
  let '(key, pattern) := item in
  m <- re_search pattern stats_output ;;
  match m with
  | Some mt =>
      let value := strip (Re.m_group1 mt) in
      v <- convert value ;;
      Ok (dict_set key v stats_dict)
  | None => Ok stats_dict
  end.

Fixpoint parse_loop (stats_output : text) (items : list (text * text))
    (stats_dict : dict) : result dict :=
  match items with
  | [] => Ok stats_dict
  | item :: rest =>
      d <- parse_field stats_output stats_dict item ;;
      parse_loop stats_output rest d
  end.

Definition parse_stats_output (stats_output : text) : result dict :=
  parse_loop stats_output patterns [].

(** ** [str.split], slicing, [os.path.join] *)

(** [s.split(sep)] for a non-empty [sep], scanning left to right.
    [skip] counts the characters of a separator just found that are
    still to be passed over; [cur] is the current piece, last character
    first. *)
Fixpoint split_from (sep : text) (skip : nat) (cur : text) (s : text)
    : list text :=
  match s with
  | [] => [rev cur]
  | c :: s' =>
      match skip with
      | S k => split_from sep k cur s'
      | O =>
          if starts_with sep s
          then rev cur :: split_from sep (List.length sep - 1) [] s'
          else split_from sep 0 (c :: cur) s'
      end
  end.

Definition split (s sep : text) : list text := split_from sep 0 [] s.

(** [l[i:j]]. *)
Definition slice {A : Type} (i j : nat) (l : list A) : list A :=
  firstn (j - i) (skipn i l).

Definition ends_with (p s : text) : bool := starts_with (rev p) (rev s).

(** [os.path.join(a, b)] (posixpath). *)
Definition path_join (a b : text) : text :=
  if starts_with (str "/") b then b
  else if text_eqb a [] || ends_with (str "/") a then a ++ b
  else a ++ str "/" ++ b.

(** ** [json.dump(obj, f, indent=2)] for a dictionary of numbers *)

Definition hex_digit (n : nat) : ascii :=
  nth n (str "0123456789abcdef") "0".

(** [encode_basestring_ascii] on one character. *)
Definition json_escape_char (c : ascii) : text :=
  let n := code c in
  if Ascii.eqb c "034" then ["\"; "034"]
  else if Ascii.eqb c "\" then str "\\"
  else if n =? 8 then str "\b"
  else if n =? 9 then str "\t"
  else if n =? 10 then str "\n"
  else if n =? 12 then str "\f"
  else if n =? 13 then str "\r"
  else if (n <? 32) || (126 <? n)
  then str "\u00" ++ [hex_digit (n / 16); hex_digit (n mod 16)]
  else [c].

Definition json_string (s : text) : text :=
  "034" :: flat_map json_escape_char s ++ ["034"].

(** [int.__repr__].  It raises beyond the limit of 4300 digits; the
    integers [int] returns stay within it ([parsed_int_bound]). *)
Definition int_repr (z : Z) : text :=
  str (NilZero.string_of_int (Z.to_int z)).

Section Json.
(** [float.__repr__] of a finite float: the shortest decimal string
    that reads back as the same binary64 value.  It depends on the
    rounding this model leaves out, so it is a parameter. *)
Variable float_repr : Q -> text.

Definition floatstr (f : pyfloat) : text :=
  match f with
  | Finite q => float_repr q
  | Infinity false => str "Infinity"
  | Infinity true => str "-Infinity"
  | NaN => str "NaN"
  end.

Definition json_number (v : number) : text :=
  match v with
  | PyInt z => int_repr z
  | PyFloat f => floatstr f
  end.

Fixpoint spaces (n : nat) : text :=
  match n with
  | O => []
  | S k => " " :: spaces k
  end.

(** The chunks [_iterencode_dict] yields after the opening brace and
    the first newline; [first] is its loop variable. *)
Fixpoint dict_chunks (item_separator key_separator : text) (first : bool)
    (items : dict) : list text :=
  match items with
  | [] => []
  | (key, value) :: rest =>
      (if first then [] else [item_separator])
      ++ [json_string key; key_separator; json_number value]
      ++ dict_chunks item_separator key_separator false rest
  end.

Definition iterencode_dict (indent : nat) (level : nat) (dct : dict)
    : list text :=
  match dct with
  | [] => [str "{}"]
  | _ =>
      let level1 := level + 1 in
      let newline_indent := "010" :: spaces (indent * level1) in
      let item_separator := str "," ++ newline_indent in
      [str "{"; newline_indent]
      ++ dict_chunks item_separator (str ": ") true dct
      ++ ["010" :: spaces (indent * level); str "}"]
  end.

(** What [json.dump(dct, f, indent=indent)] writes to [f]. *)
Definition json_dump (dct : dict) (indent : nat) : text :=
  List.concat (iterencode_dict indent 0 dct).

(** ** [Pipeline.calculate_mean_rms] *)

(** What the file system does with [open(path, 'w')] followed by the
    writing of a text: the file holds the whole text; or [open] raises
    and the file is not touched; or the file is opened, hence emptied,
    and writing or closing it raises when only the first [kept]
    characters have reached it. *)
Inductive write_outcome : Type :=
| Stored
| OpenFails
| WriteFails (kept : nat).

Variable file_system : text -> text -> write_outcome.

Inductive event : Type :=
| Print (line : text)
| WriteFile (path content : text)
| PartialFile (path content : text).

(** Computations that append to a trace of events and may raise. *)
Definition M (A : Type) : Type := list event -> result A * list event.

Definition ret {A : Type} (a : A) : M A := fun t => (Ok a, t).
Definition throw {A : Type} (e : exn) : M A := fun t => (Raise e, t).
Definition emit (ev : event) : M unit := fun t => (Ok tt, t ++ [ev]).
Definition lift {A : Type} (r : result A) : M A := fun t => (r, t).

Definition bindM {A B : Type} (m : M A) (f : A -> M B) : M B :=
  fun t =>
    match m t with
    | (Ok a, t') => f a t'
    | (Raise e, t') => (Raise e, t')
    end.

Notation "x <~ m ;; k" := (bindM m (fun x => k))
  (at level 61, m at next level, right associativity).
Notation "m ;;; k" := (bindM m (fun _ => k))
  (at level 61, right associativity).

Fixpoint for_each {A : Type} (l : list A) (body : A -> M unit) : M unit :=
  match l with
  | [] => ret tt
  | a :: l' => body a ;;; for_each l' body
  end.

Definition separator : text := str "Pixel statistics for the NDF structure".

Definition stats_files (output_path : text) : list text :=
  [ path_join output_path (str "noisemap_stats.json");
    path_join output_path (str "1kms_error_stats.json");
    path_join output_path (str "1kms_noisemap_stats.json") ].

(** Lines 118-119: [with open(path, 'w') as f: json.dump(..., f, ...)],
    for the text [content] that [json.dump] produces. *)
Definition write_file (path content : text) : M unit :=
  match file_system path content with
  | Stored => emit (WriteFile path content)
  | OpenFails => throw (OSError path)
  | WriteFails kept =>
      emit (PartialFile path (firstn kept content)) ;;; throw (OSError path)
  end.

(** Lines 105-120.  [full_output] is [result.stdout], the captured
    output of the shell command of lines 87-104. *)
Definition calculate_mean_rms (full_output output_path : text) : M unit :=
  emit (Print full_output) ;;;
  let stats_blocks := split full_output separator in
  if List.length stats_blocks <? 4 then throw ValueError_blocks
  else
    let stats_outputs := slice 1 4 stats_blocks in
    for_each (combine stats_outputs (stats_files output_path))
      (fun '(stats_text, json_file) =>
         stats_dict <~ lift (parse_stats_output stats_text) ;;
         write_file json_file (json_dump stats_dict 2) ;;;
         emit (Print (str "Saved stats to " ++ json_file))).

(** The files written in full, in the order of a trace. *)
Definition writes (t : list event) : list (text * text) :=
  flat_map (fun ev => match ev with
                      | WriteFile p c => [(p, c)]
                      | Print _ => []
                      | PartialFile _ _ => []
                      end) t.
End Json.

(** ** The shape shared by the ten patterns

    Every pattern is its label, [\s+], a colon, [\s+] and a group holding
    one repeated set.  The definitions below name that shape and give a
    direct, backtracking-free reading of it; the properties relate them
    to [Re.compile] and [Re.run]. *)

Module Shape.
Import Re.

Definition lits (l : text) : list node := map (fun c => Single (One c)) l.

Definition ws : single := InSet [CSpace].

(** [[-\d\.eE\+]] *)
Definition numset : single :=
  InSet [CChar "-"; CDigit; CChar "."; CChar "e"; CChar "E"; CChar "+"].

(** [\d] *)
Definition digits : single := InSet [CDigit].

Definition field_nodes (label : text) (value : single) : list node :=
  lits label
  ++ [Repeat1 ws; Single (One ":"); Repeat1 ws;
      GroupOpen; Repeat1 value; GroupClose].

(** The two kinds of field: the seven statistics and the three counts. *)
Inductive kind : Type := General | Count.

Definition kind_set (k : kind) : single :=
  match k with
  | General => numset
  | Count => digits
  end.

Definition fields : list (text * kind) :=
  [ (str "Pixel sum", General);
    (str "Pixel mean", General);
    (str "Standard deviation", General);
    (str "Skewness", General);
    (str "Kurtosis", General);
    (str "Minimum pixel value", General);
    (str "Maximum pixel value", General);
    (str "Total number of pixels", Count);
    (str "Number of pixels used", Count);
    (str "No. of pixels excluded", Count) ].

(** A character a field of kind [k] captures. *)
Definition in_kind (k : kind) (c : ascii) : bool :=
  single_matches (kind_set k) c.

(** A captured token: non-empty, made of the field's characters. *)
Definition token_of (kd : kind) (tok : text) : bool :=
  match tok with
  | [] => false
  | _ => forallb (in_kind kd) tok
  end.

(** The token a field captures when its pattern is applied at the head
    of [s]: the label, a non-empty run of whitespace, a colon, a
    non-empty run of whitespace, then the longest non-empty run of
    characters of the field's set. *)
Definition field_match (label : text) (k : kind) (s : text) : option text :=
  if starts_with label s then
    let '(w1, r1) := span is_space (skipn (List.length label) s) in
    match w1, r1 with
    | _ :: _, c :: r2 =>
        if Ascii.eqb ":" c then
          let '(w2, r3) := span is_space r2 in
          match w2, fst (span (in_kind k) r3) with
          | _ :: _, (_ :: _) as tok => Some tok
          | _, _ => None
          end
        else None
    | _, _ => None
    end
  else None.

End Shape.

(** ** Numeric tokens, in the words of the specification

    "A token composed of digits, an optional leading minus sign, an
    optional decimal point, and an optional exponent suffix ([e]/[E],
    optional sign, digits)." *)

Module Token.

Record expo : Type := mkExpo {
  e_mark : ascii;      (* [e] or [E] *)
  e_sign : text;       (* nothing, [+] or [-] *)
  e_digits : text
}.

Record token : Type := mkToken {
  t_minus : bool;            (* the leading minus sign *)
  t_int : text;              (* the digits before the point *)
  t_frac : option text;      (* the point, with the digits after it *)
  t_exp : option expo
}.

Definition frac_digits (t : token) : text :=
  match t_frac t with
  | Some f => f
  | None => []
  end.

Definition wf_expo (e : expo) : bool :=
  (Ascii.eqb (e_mark e) "e" || Ascii.eqb (e_mark e) "E")
  && (text_eqb (e_sign e) [] || text_eqb (e_sign e) ["+"]
      || text_eqb (e_sign e) ["-"])
  && forallb is_digit (e_digits e)
  && negb (text_eqb (e_digits e) []).

Definition wf (t : token) : bool :=
  forallb is_digit (t_int t)
  && forallb is_digit (frac_digits t)
  && negb (text_eqb (t_int t ++ frac_digits t) [])
  && match t_exp t with
     | Some e => wf_expo e
     | None => true
     end.

Definition expo_text (e : expo) : text := e_mark e :: e_sign e ++ e_digits e.

(** The characters of an optional minus sign. *)
Definition sign_text (minus : bool) : text := if minus then ["-"] else [].

(** The characters after the sign. *)
Definition body (t : token) : text :=
  t_int t
  ++ match t_frac t with Some f => "." :: f | None => [] end
  ++ match t_exp t with Some e => expo_text e | None => [] end.

(** The characters of the token, as they stand in the report. *)
Definition token_text (t : token) : text :=
  (if t_minus t then ["-"] else [])
  ++ t_int t
  ++ match t_frac t with
     | Some f => "." :: f
     | None => []
     end
  ++ match t_exp t with
     | Some e => expo_text e
     | None => []
     end.

Definition expo_value (e : expo) : Z :=
  signed (text_eqb (e_sign e) ["-"]) (decimal_value (e_digits e)).

(** The exponent of ten of a token. *)
Definition exp10 (t : token) : Z :=
  (match t_exp t with Some e => expo_value e | None => 0 end
   - Z.of_nat (List.length (frac_digits t)))%Z.

(** The number the token denotes: an integer when it has neither a point
    nor an exponent, a floating-point number otherwise. *)
Definition token_number (t : token) : number :=
  match t_frac t, t_exp t with
  | None, None => PyInt (signed (t_minus t) (decimal_value (t_int t)))
  | _, _ =>
      PyFloat (Finite
        (decimal_Q
           (signed (t_minus t) (decimal_value (t_int t ++ frac_digits t)))
           (match t_exp t with
            | Some e => expo_value e
            | None => 0
            end - Z.of_nat (List.length (frac_digits t)))%Z))
  end.

(** A token that is only digits. *)
Definition unsigned_digits (t : token) : bool :=
  negb (t_minus t)
  && match t_frac t, t_exp t with
     | None, None => true
     | _, _ => false
     end.

(** A token the conversion takes: an integer token, which [int] reads,
    has no more digits than the limit allows; a token with a point or an
    exponent is read by [float], which has no limit. *)
Definition within_limit (t : token) : bool :=
  match t_frac t, t_exp t with
  | None, None => List.length (t_int t) <=? int_max_str_digits
  | _, _ => true
  end.

(** The tokens a field of each kind reads: its pattern captures them
    whole and the conversion takes them. *)
Definition accepted (k : Shape.kind) (t : token) : bool :=
  wf t && within_limit t
  && match k with
     | Shape.General => true
     | Shape.Count => unsigned_digits t
     end.

End Token.

(** A non-empty run of whitespace. *)
Definition blank (w : text) : bool :=
  match w with
  | [] => false
  | _ => forallb is_space w
  end.

(** What follows a token does not continue it. *)
Definition stops (k : Shape.kind) (post : text) : bool :=
  match post with
  | [] => true
  | c :: _ => negb (Shape.in_kind k c)
  end.

(** The rest of the text after a line: nothing, or a newline first. *)
Definition line_end (post : text) : bool :=
  match post with
  | [] => true
  | c :: _ => Ascii.eqb c "010"
  end.

(** Whether [re.search(pattern, s)] finds a match. *)
Definition matched (pattern s : text) : bool :=
  match re_search pattern s with
  | Ok (Some _) => true
  | _ => false
  end.

(** ** [parse_stats_output] with its dictionary as a heap object

    [stats_dict = {}] allocates a new object, [stats_dict[key] = ...]
    mutates it in place, and the function returns a reference to it.
    The heap is the list of all dictionary objects; a reference is an
    index into it. *)

Module Heap.

Definition heap := list dict.
Definition ref := nat.

Definition alloc (h : heap) : ref * heap := (List.length h, h ++ [[]]).

Fixpoint update (r : ref) (f : dict -> dict) (h : heap) : heap :=
  match h, r with
  | [], _ => []
  | d :: h', O => f d :: h'
  | d :: h', S r' => d :: update r' f h'
  end.

Definition deref (r : ref) (h : heap) : option dict := nth_error h r.

Definition parse_field_heap (stats_output : text) (stats_dict : ref)
    (item : text * text) (h : heap) : result unit * heap :=
  let '(key, pattern) := item in
  match re_search pattern stats_output with
  | Raise e => (Raise e, h)
  | Ok None => (Ok tt, h)
  | Ok (Some mt) =>
      let value := strip (Re.m_group1 mt) in
      match convert value with
      | Raise e => (Raise e, h)
      | Ok v => (Ok tt, update stats_dict (dict_set key v) h)
      end
  end.

Fixpoint parse_loop_heap (stats_output : text) (items : list (text * text))
    (stats_dict : ref) (h : heap) : result unit * heap :=
  match items with
  | [] => (Ok tt, h)
  | item :: rest =>
      match parse_field_heap stats_output stats_dict item h with
      | (Ok _, h') => parse_loop_heap stats_output rest stats_dict h'
      | (Raise e, h') => (Raise e, h')
      end
  end.

Definition parse_stats_output_heap (stats_output : text) (h : heap)
    : result ref * heap :=
  let '(stats_dict, h0) := alloc h in
  match parse_loop_heap stats_output patterns stats_dict h0 with
  | (Ok _, h') => (Ok stats_dict, h')
  | (Raise e, h') => (Raise e, h')
  end.

End Heap.

(** The outcome of one field on a text, apart from the dictionary: no
    match, a value, or the exception of the conversion. *)
Definition field_value (stats_output pattern : text) : result (option number) :=
  m <- re_search pattern stats_output ;;
  match m with
  | Some mt => v <- convert (strip (Re.m_group1 mt)) ;; Ok (Some v)
  | None => Ok None
  end.

(** ** Report lines *)

(** [<Label><whitespace>:<whitespace><value>]. *)
Definition report_line (label w1 w2 value : text) : text :=
  label ++ w1 ++ ":" :: w2 ++ value.

(** The keys of [patterns], in declaration order. *)
Definition field_names : list text := map fst patterns.

(** No label other than [label] occurs in [s]. *)
Definition only_label (label s : text) : bool :=
  forallb (fun k => text_eqb k label || negb (occurs k s)) field_names.

(** ** Laws of the specification, as worded *)

(** "For each field: if a label, colon and numeric token is present in
    the text, the returned mapping contains that key with the typed value
    of the token" -- read for every field and every numeric token, at the
    first occurrence of the label, with whitespace around the colon. *)
Definition extraction_for_every_token : Prop :=
  forall (label : text) (kd : Shape.kind) (t : Token.token)
         (pre w1 w2 post : text),
    In (label, kd) Shape.fields ->
    Token.wf t = true ->
    blank w1 = true -> blank w2 = true -> line_end post = true ->
    let s := pre ++ report_line label w1 w2 (Token.token_text t) ++ post in
    find label s = Some (List.length pre) ->
    exists d, parse_stats_output s = Ok d /\
              dict_get label d = Some (Token.token_number t).

(** "For every line of the form label, whitespace, colon, whitespace,
    numeric value, the field is extracted with the same value whatever
    the amount of whitespace" -- read for every field and every numeric
    value. *)
Definition tolerance_for_every_value : Prop :=
  forall (label : text) (kd : Shape.kind) (t : Token.token),
    In (label, kd) Shape.fields ->
    Token.wf t = true ->
    exists v, forall w1 w2 : text,
      blank w1 = true -> blank w2 = true ->
      exists d,
        parse_stats_output (report_line label w1 w2 (Token.token_text t)) = Ok d
        /\ dict_get label d = Some v.

(** No label at all occurs in [s]. *)
Definition no_label (s : text) : bool :=
  forallb (fun k => negb (occurs k s)) field_names.

(** ** The layout of a written record *)

(** [sep.join(parts)]. *)
Fixpoint join (sep : text) (parts : list text) : text :=
  match parts with
  | [] => []
  | [x] => x
  | x :: rest => x ++ sep ++ join sep rest
  end.

(** One line per binding: two spaces, the quoted key, a colon and a
    space, the number. *)
Definition record_lines (float_repr : Q -> text) (d : dict) : list text :=
  map (fun '(k, v) =>
         str "  " ++ json_string k ++ str ": " ++ json_number float_repr v) d.

(** The labels whose pattern matches in [s], in declaration order. *)
Definition present (s : text) : list text :=
  map fst (filter (fun item => matched (snd item) s) patterns).

(** ** Vocabulary of the further properties *)


(** [k] and [a] differ at a position both of them have. *)
Fixpoint mismatch (k a : text) : bool :=
  match k, a with
  | x :: k', y :: a' => negb (Ascii.eqb x y) || mismatch k' a'
  | _, _ => false
  end.

(** [k] starts nowhere inside [a], whatever follows [a]. *)
Fixpoint clash (k a : text) : bool :=
  match a with
  | [] => true
  | _ :: a' => mismatch k a && clash k a'
  end.

(** The characters that follow a label on a report line: whitespace, the
    colon, and the characters of [[-\d\.eE\+]]. *)
Definition value_char (c : ascii) : bool :=
  is_space c || Ascii.eqb c ":" || Shape.in_kind Shape.General c.

(** [c] is not the first character of [k]. *)
Definition not_head (k : text) (c : ascii) : bool :=
  match k with
  | x :: _ => negb (Ascii.eqb x c)
  | [] => false
  end.

(** The events of one record: the write, then the message. *)
Definition record_events (item : text * text) : list event :=
  [WriteFile (fst item) (snd item);
   Print (str "Saved stats to " ++ fst item)].


(** ** Reports made of lines *)

Module Report.

(** One line of a report: a label, the whitespace on the two sides of
    the colon, a numeric token, and the whitespace that ends the line. *)
Record line : Type := mkLine {
  l_label : text;
  l_kind : Shape.kind;
  l_w1 : text;
  l_w2 : text;
  l_token : Token.token;
  l_end : text
}.

Definition line_text (ln : line) : text :=
  report_line (l_label ln) (l_w1 ln) (l_w2 ln) (Token.token_text (l_token ln))
  ++ l_end ln.

Definition report_text (lines : list line) : text :=
  List.concat (map line_text lines).

(** The label is a field's, the token is one the field accepts, and
    there is whitespace around the colon and at the end of the line. *)
Definition line_ok (ln : line) : bool :=
  existsb (fun f => text_eqb (fst f) (l_label ln)
                    && match snd f, l_kind ln with
                       | Shape.General, Shape.General => true
                       | Shape.Count, Shape.Count => true
                       | _, _ => false
                       end) Shape.fields
  && Token.accepted (l_kind ln) (l_token ln)
  && blank (l_w1 ln) && blank (l_w2 ln) && blank (l_end ln).

(** The first line that carries [label]. *)
Fixpoint lookup (label : text) (lines : list line) : option line :=
  match lines with
  | [] => None
  | ln :: rest =>
      if text_eqb label (l_label ln) then Some ln else lookup label rest
  end.

(** The bindings of the lines, in the declaration order of the fields;
    of two lines with the same label the first counts. *)
Definition bindings (lines : list line) : dict :=
  flat_map (fun name =>
              match lookup name lines with
              | Some ln => [(name, Token.token_number (l_token ln))]
              | None => []
              end) field_names.

End Report.

(** * Properties *)

(** ** Text *)

Lemma text_eqb_eq (a b : text) : text_eqb a b = true <-> a = b.
Proof.
  revert b; induction a as [|x a IH]; intros [|y b]; simpl;
    try (split; [discriminate | discriminate]); try tauto.
  rewrite andb_true_iff, Ascii.eqb_eq, IH.
  split; [intros [-> ->]; reflexivity | intros E; inversion E; auto].
Qed.

Lemma text_eqb_refl (a : text) : text_eqb a a = true.
Proof. apply text_eqb_eq; reflexivity. Qed.

Lemma text_eqb_neq (a b : text) : text_eqb a b = false <-> a <> b.
Proof.
  rewrite <- text_eqb_eq. destruct (text_eqb a b); split; congruence.
Qed.

Lemma starts_with_app (p s : text) : starts_with p (p ++ s) = true.
Proof.
  induction p as [|a p IH]; simpl; [reflexivity|].
  now rewrite Ascii.eqb_refl.
Qed.

Lemma starts_with_split (p s : text) :
  starts_with p s = true -> s = p ++ skipn (List.length p) s.
Proof.
  revert s; induction p as [|a p IH]; intros [|b s]; simpl;
    try reflexivity; try discriminate.
  rewrite andb_true_iff, Ascii.eqb_eq. intros [-> H].
  f_equal. now apply IH.
Qed.

Lemma skipn_length_app (p s : text) : skipn (List.length p) (p ++ s) = s.
Proof. induction p; simpl; auto. Qed.

(** [span] splits its argument, takes only characters satisfying [f], and
    stops at the first one that does not. *)
Lemma span_spec (f : ascii -> bool) (s a b : text) :
  span f s = (a, b) ->
  s = a ++ b /\ forallb f a = true /\
  match b with c :: _ => f c = false | [] => True end.
Proof.
  revert a b; induction s as [|c s IH]; simpl; intros a b E.
  - inversion E; subst; auto.
  - destruct (f c) eqn:Fc.
    + destruct (span f s) as [a' b'] eqn:Es. inversion E; subst.
      destruct (IH a' b eq_refl) as (-> & Ha & Hb). simpl.
      rewrite Fc, Ha. auto.
    + inversion E; subst. simpl. rewrite Fc. auto.
Qed.

Lemma span_app (f : ascii -> bool) (a b : text) :
  forallb f a = true ->
  match b with c :: _ => f c = false | [] => True end ->
  span f (a ++ b) = (a, b).
Proof.
  induction a as [|c a IH]; simpl; intros Ha Hb.
  - destruct b as [|c b]; [reflexivity|]. simpl. now rewrite Hb.
  - apply andb_true_iff in Ha as [Hc Ha]. rewrite Hc, IH; auto.
Qed.

(** ** The matcher on the shape of the patterns *)

Module ReFacts.
Import Re Shape.

Lemma consumed_closed (a : text) (g : gstate) :
  g_open g = false -> consumed a g = g.
Proof.
  revert g; induction a as [|c a IH]; simpl; intros g Hg; [reflexivity|].
  unfold consume at 1. rewrite Hg. fold (consumed a g). now apply IH.
Qed.

Lemma consumed_open (a t : text) :
  consumed a (mkG true t) = mkG true (rev a ++ t).
Proof.
  revert t; induction a as [|c a IH]; simpl; intros t; [reflexivity|].
  unfold consume at 1; simpl. fold (consumed a (mkG true (c :: t))).
  rewrite IH, <- app_assoc. reflexivity.
Qed.

Section Star.
Context {R : Type} (x : single) (k : text -> gstate -> option R).

(** When the continuation cannot start on a character of the set,
    backtracking into the run never helps: the run is the longest one. *)
Lemma star_longest_blocked (s : text) (g : gstate) :
  (forall c s' g', single_matches x c = true -> k (c :: s') g' = None) ->
  star x k s g =
  let '(a, b) := span (single_matches x) s in k b (consumed a g).
Proof.
  intros Hk. revert g; induction s as [|c s IH]; intros g; simpl.
  - reflexivity.
  - destruct (single_matches x c) eqn:Hc; [|reflexivity].
    rewrite IH. destruct (span (single_matches x) s) as [a b]. simpl.
    destruct (k b (consumed a (consume c g))); [reflexivity|].
    now apply Hk.
Qed.

(** When the continuation always succeeds, the first attempt, after the
    longest run, is the answer. *)
Lemma star_longest_total (s : text) (g : gstate) :
  (forall s' g', k s' g' <> None) ->
  star x k s g =
  let '(a, b) := span (single_matches x) s in k b (consumed a g).
Proof.
  intros Hk. revert g; induction s as [|c s IH]; intros g; simpl.
  - reflexivity.
  - destruct (single_matches x c) eqn:Hc; [|reflexivity].
    rewrite IH. destruct (span (single_matches x) s) as [a b]. simpl.
    destruct (k b (consumed a (consume c g))) eqn:E; [reflexivity|].
    now apply Hk in E.
Qed.

Lemma plus_of_star (s : text) (g : gstate) :
  (forall s' g', star x k s' g' =
     let '(a, b) := span (single_matches x) s' in k b (consumed a g')) ->
  plus x k s g =
  match span (single_matches x) s with
  | ((_ :: _) as a, b) => k b (consumed a g)
  | ([], _) => None
  end.
Proof.
  intros Hs. destruct s as [|c s]; simpl; [reflexivity|].
  destruct (single_matches x c) eqn:Hc; [|reflexivity].
  rewrite Hs. destruct (span (single_matches x) s) as [a b]. reflexivity.
Qed.

Lemma run_lits (l : text) (p : list node) (s : text) (g : gstate) :
  g_open g = false ->
  run (lits l ++ p) k s g =
  if starts_with l s then run p k (skipn (List.length l) s) g else None.
Proof.
  intros Hg. revert s; induction l as [|a l IH]; intros s; simpl.
  - reflexivity.
  - destruct s as [|c s]; [reflexivity|].
    destruct (Ascii.eqb a c); simpl; [|reflexivity].
    unfold consume. rewrite Hg. apply IH.
Qed.
End Star.

Lemma space_not_in_kind (kd : kind) (c : ascii) :
  is_space c = true -> in_kind kd c = false.
Proof.
  intros Hs. destruct kd; unfold in_kind; simpl.
  - destruct c as [[] [] [] [] [] [] [] []]; try discriminate Hs; reflexivity.
  - destruct c as [[] [] [] [] [] [] [] []]; try discriminate Hs; reflexivity.
Qed.

Lemma ws_matches (c : ascii) : single_matches ws c = is_space c.
Proof. simpl. now rewrite orb_false_r. Qed.

Lemma span_ext (f h : ascii -> bool) (s : text) :
  (forall c, f c = h c) -> span f s = span h s.
Proof.
  intros E. induction s as [|c s IH]; simpl; [reflexivity|].
  now rewrite E, IH.
Qed.

Section RunEquations.
Context {R : Type} (k : text -> gstate -> option R).

Lemma run_single (x : single) (p : list node) (s : text) (g : gstate) :
  run (Single x :: p) k s g =
  match s with
  | c :: s' => if single_matches x c then run p k s' (consume c g) else None
  | [] => None
  end.
Proof. reflexivity. Qed.

Lemma run_repeat (x : single) (p : list node) (s : text) (g : gstate) :
  run (Repeat1 x :: p) k s g = plus x (run p k) s g.
Proof. reflexivity. Qed.

Lemma run_open (p : list node) (s : text) (g : gstate) :
  run (GroupOpen :: p) k s g = run p k s (mkG true []).
Proof. reflexivity. Qed.

Lemma run_close (s : text) (g : gstate) :
  run [GroupClose] k s g = k s (mkG false (g_text g)).
Proof. reflexivity. Qed.
End RunEquations.

(** The backtracking matcher agrees with the direct reading. *)
Lemma match_here_field (label : text) (kd : kind) (s : text) :
  match_here (field_nodes label (kind_set kd)) s = field_match label kd s.
Proof.
  unfold match_here, field_nodes, field_match.
  rewrite run_lits by reflexivity.
  destruct (starts_with label s); [|reflexivity].
  set (r := skipn (List.length label) s). clearbody r.
  set (kf := fun (_ : text) (g : gstate) => Some (rev (g_text g))).
  rewrite run_repeat, plus_of_star.
  2:{ intros. apply star_longest_blocked. intros c s2 g2 Hc.
      rewrite ws_matches in Hc. rewrite run_single.
      unfold single_matches.
      destruct (Ascii.eqb ":" c) eqn:E; [|reflexivity].
      apply Ascii.eqb_eq in E. subst c. discriminate Hc. }
  rewrite (span_ext _ is_space r ws_matches).
  destruct (span is_space r) as [[|x w1] r1]; [reflexivity|].
  rewrite consumed_closed by reflexivity.
  rewrite run_single. destruct r1 as [|c r2]; [reflexivity|].
  unfold single_matches at 1.
  destruct (Ascii.eqb ":" c); [|reflexivity].
  rewrite run_repeat, plus_of_star.
  2:{ intros. apply star_longest_blocked. intros c2 s2 g2 Hc.
      rewrite ws_matches in Hc. rewrite run_open, run_repeat.
      unfold plus.
      change (single_matches (kind_set kd) c2) with (in_kind kd c2).
      now rewrite (space_not_in_kind kd c2 Hc). }
  rewrite (span_ext _ is_space r2 ws_matches).
  destruct (span is_space r2) as [[|y w2] r3]; [reflexivity|].
  rewrite run_open, run_repeat, plus_of_star.
  2:{ intros. apply star_longest_total. intros s2 g2.
      rewrite run_close. discriminate. }
  change (single_matches (kind_set kd)) with (in_kind kd).
  destruct (span (in_kind kd) r3) as [[|z tok] r4]; [reflexivity|].
  rewrite run_close, consumed_open. unfold kf. cbn [g_text fst].
  rewrite app_nil_r. change (rev tok ++ [z]) with (rev (z :: tok)).
  now rewrite rev_involutive.
Qed.

(** *** The direct reading, decomposed *)

Lemma blank_spec (w : text) :
  blank w = true <-> w <> [] /\ forallb is_space w = true.
Proof.
  destruct w as [|c w]; simpl.
  - split; [discriminate | intros [H _]; now elim H].
  - split; [intros H; split; [discriminate | exact H] | tauto].
Qed.

Lemma stops_spec (kd : kind) (post : text) :
  stops kd post = true <->
  match post with c :: _ => in_kind kd c = false | [] => True end.
Proof.
  destruct post as [|c post]; simpl; [tauto|].
  now rewrite negb_true_iff.
Qed.

Lemma field_match_sound (label : text) (kd : kind) (s tok : text) :
  field_match label kd s = Some tok ->
  exists w1 w2 post,
    s = label ++ w1 ++ ":" :: w2 ++ tok ++ post /\
    blank w1 = true /\ blank w2 = true /\
    token_of kd tok = true /\ stops kd post = true.
Proof.
  unfold field_match. destruct (starts_with label s) eqn:Hl; [|discriminate].
  apply starts_with_split in Hl.
  destruct (span is_space (skipn (List.length label) s)) as [w1 r1] eqn:E1.
  apply span_spec in E1 as (Hr & Hw1 & _).
  destruct w1 as [|x w1]; [discriminate|].
  destruct r1 as [|c r2]; [discriminate|].
  destruct (Ascii.eqb ":" c) eqn:Hc; [|discriminate].
  apply Ascii.eqb_eq in Hc. subst c.
  destruct (span is_space r2) as [w2 r3] eqn:E2.
  apply span_spec in E2 as (-> & Hw2 & _).
  destruct w2 as [|y w2]; [discriminate|].
  destruct (span (in_kind kd) r3) as [tk post] eqn:E3.
  apply span_spec in E3 as (-> & Htk & Hpost).
  simpl fst. destruct tk as [|z tk]; [discriminate|].
  intros [= <-]. exists (x :: w1), (y :: w2), post.
  repeat split; try assumption.
  - rewrite Hl at 1. now rewrite Hr.
  - now apply stops_spec.
Qed.

Lemma field_match_complete (label : text) (kd : kind)
    (w1 w2 tok post : text) :
  blank w1 = true -> blank w2 = true ->
  token_of kd tok = true -> stops kd post = true ->
  field_match label kd (label ++ w1 ++ ":" :: w2 ++ tok ++ post) = Some tok.
Proof.
  intros H1 H2 Ht Hp.
  apply blank_spec in H1 as [N1 S1]. apply blank_spec in H2 as [N2 S2].
  apply stops_spec in Hp.
  unfold field_match. rewrite starts_with_app, skipn_length_app.
  rewrite (span_app is_space w1 (":" :: w2 ++ tok ++ post) S1 eq_refl).
  destruct w1 as [|x w1]; [now elim N1|].
  rewrite Ascii.eqb_refl.
  destruct tok as [|z tok]; [discriminate|]. simpl in Ht.
  assert (Hz : is_space z = false).
  { destruct (is_space z) eqn:Hz; [|reflexivity].
    apply (space_not_in_kind kd) in Hz.
    apply andb_true_iff in Ht as [Ht _]. congruence. }
  rewrite (span_app is_space w2 ((z :: tok) ++ post) S2 Hz).
  destruct w2 as [|y w2]; [now elim N2|].
  rewrite (span_app (in_kind kd) (z :: tok) post Ht Hp). reflexivity.
Qed.

(** What the field captures depends on what follows the whitespace after
    the colon, not on the whitespace itself. *)
Lemma field_match_whitespace (label : text) (kd : kind)
    (w1 w2 v1 v2 rest : text) :
  blank w1 = true -> blank w2 = true -> blank v1 = true -> blank v2 = true ->
  field_match label kd (label ++ w1 ++ ":" :: w2 ++ rest) =
  field_match label kd (label ++ v1 ++ ":" :: v2 ++ rest).
Proof.
  assert (G : forall a b, blank a = true -> blank b = true ->
    field_match label kd (label ++ a ++ ":" :: b ++ rest) =
    match fst (span (in_kind kd) (lstrip rest)) with
    | [] => None
    | tok => Some tok
    end).
  { intros a b Ha Hb.
    apply blank_spec in Ha as [Na Sa]. apply blank_spec in Hb as [Nb Sb].
    unfold field_match. rewrite starts_with_app, skipn_length_app.
    rewrite (span_app is_space a (":" :: b ++ rest) Sa eq_refl).
    destruct a as [|x a]; [now elim Na|]. rewrite Ascii.eqb_refl.
    assert (E : exists u, span is_space (b ++ rest) = (b ++ u, lstrip rest)).
    { clear Nb. induction b as [|y b IH]; simpl.
      - clear. induction rest as [|c r IH]; simpl; [now exists []|].
        destruct (is_space c) eqn:Hc.
        + destruct IH as [u ->]. now exists (c :: u).
        + now exists [].
      - simpl in Sb. apply andb_true_iff in Sb as [-> Sb].
        destruct (IH Sb) as [u ->]. now exists u. }
    destruct E as [u ->]. destruct b as [|y b]; [now elim Nb|]. reflexivity. }
  intros. rewrite (G w1 w2), (G v1 v2); auto.
Qed.

(** *** Searching *)

Section Search.
Variables (label : text) (kd : kind).
Let p := field_nodes label (kind_set kd).

Lemma search_from_absent (i j : nat) (s : text) :
  find_from label i s = None -> search_from p j s = None.
Proof.
  revert i j; induction s as [|c s IH]; intros i j; simpl;
    unfold p; rewrite match_here_field; unfold field_match.
  - destruct (starts_with label []); [discriminate | reflexivity].
  - destruct (starts_with label (c :: s)); [discriminate|].
    apply IH.
Qed.

(** The match is at the first occurrence of the label or nowhere
    before it. *)
Lemma search_from_first (i j : nat) (pre rest tok : text) :
  find_from label i (pre ++ rest) = Some (i + List.length pre) ->
  field_match label kd rest = Some tok ->
  search_from p j (pre ++ rest) = Some (mkM (j + List.length pre) tok).
Proof.
  revert i j; induction pre as [|c pre IH]; intros i j Hf Hm.
  - simpl app. destruct rest as [|c r]; simpl; unfold p;
      rewrite match_here_field, Hm; now rewrite Nat.add_0_r.
  - simpl app in *. simpl in Hf |- *. unfold p.
    rewrite match_here_field. unfold field_match at 1.
    destruct (starts_with label (c :: pre ++ rest)).
    + injection Hf. simpl. lia.
    + fold p. simpl List.length.
      replace (j + S (List.length pre)) with (S j + List.length pre) by lia.
      apply (IH (S i)); [|exact Hm].
      rewrite Hf. f_equal. simpl. lia.
Qed.

Lemma search_from_sound (j : nat) (s : text) (m : rmatch) :
  search_from p j s = Some m ->
  exists pre rest,
    s = pre ++ rest /\ m_start m = j + List.length pre /\
    field_match label kd rest = Some (m_group1 m).
Proof.
  revert j; induction s as [|c s IH]; intros j; simpl;
    unfold p; rewrite match_here_field.
  - destruct (field_match label kd []) as [t|] eqn:E; [|discriminate].
    intros [= <-]. exists [], []. simpl. auto.
  - destruct (field_match label kd (c :: s)) as [t|] eqn:E.
    + intros [= <-]. exists [], (c :: s). simpl. auto.
    + intros H. apply IH in H as (pre & rest & -> & Hs & Hm).
      exists (c :: pre), rest. simpl. split; [reflexivity|].
      split; [lia | exact Hm].
Qed.
End Search.

(** *** The ten patterns have the shape *)

Lemma compile_patterns :
  map (fun '(key, pattern) => (key, compile pattern)) patterns =
  map (fun '(key, kd) => (key, Some (field_nodes key (kind_set kd)))) fields.
Proof. vm_compute. reflexivity. Qed.

Lemma pattern_shape (key pattern : text) :
  In (key, pattern) patterns ->
  exists kd, In (key, kd) fields /\
             compile pattern = Some (field_nodes key (kind_set kd)).
Proof.
  intros H.
  apply (in_map (fun '(key, pattern) => (key, compile pattern))) in H.
  rewrite compile_patterns in H. apply in_map_iff in H as ([k kd] & E & Hin).
  injection E as -> E. exists kd. split; [exact Hin | now symmetry].
Qed.

Lemma field_pattern (key : text) (kd : kind) :
  In (key, kd) fields ->
  exists pattern, In (key, pattern) patterns /\
                  compile pattern = Some (field_nodes key (kind_set kd)).
Proof.
  intros H.
  apply (in_map (fun '(key, kd) =>
                   (key, Some (field_nodes key (kind_set kd))))) in H.
  rewrite <- compile_patterns in H.
  apply in_map_iff in H as ([k pat] & E & Hin).
  injection E as -> E. exists pat. split; [exact Hin | exact E].
Qed.

End ReFacts.

(** ** Dictionaries *)

Lemma dict_get_set_same (k : text) (v : number) (d : dict) :
  dict_get k (dict_set k v d) = Some v.
Proof.
  induction d as [|[k' v'] d IH]; simpl.
  - now rewrite text_eqb_refl.
  - destruct (text_eqb k k') eqn:E; simpl.
    + now rewrite text_eqb_refl.
    + now rewrite E.
Qed.

Lemma dict_get_set_other (k k' : text) (v : number) (d : dict) :
  k <> k' -> dict_get k (dict_set k' v d) = dict_get k d.
Proof.
  intros N. apply text_eqb_neq in N.
  induction d as [|[k2 v2] d IH]; simpl.
  - now rewrite N.
  - destruct (text_eqb k' k2) eqn:E; simpl.
    + apply text_eqb_eq in E. subst k2. now rewrite N.
    + now rewrite IH.
Qed.

Lemma dict_get_none (k : text) (d : dict) :
  dict_get k d = None <-> ~ In k (keys d).
Proof.
  induction d as [|[k' v'] d IH]; simpl; [tauto|].
  destruct (text_eqb k k') eqn:E.
  - apply text_eqb_eq in E. subst. split; [discriminate | tauto].
  - apply text_eqb_neq in E. rewrite IH. split; [|tauto].
    intros H [H1|H1]; [congruence | tauto].
Qed.

Lemma keys_set_new (k : text) (v : number) (d : dict) :
  ~ In k (keys d) -> keys (dict_set k v d) = keys d ++ [k].
Proof.
  induction d as [|[k' v'] d IH]; simpl; intros N; [reflexivity|].
  destruct (text_eqb k k') eqn:E.
  - apply text_eqb_eq in E. subst. tauto.
  - simpl. f_equal. apply IH. tauto.
Qed.

(** ** The loop of [parse_stats_output] *)

Lemma parse_field_value (s : text) (d : dict) (key pattern : text) :
  parse_field s d (key, pattern) =
  r <- field_value s pattern ;;
  Ok match r with
     | Some v => dict_set key v d
     | None => d
     end.
Proof.
  unfold parse_field, field_value.
  destruct (re_search pattern s) as [[mt|]|e]; simpl; try reflexivity.
  destruct (convert (strip (Re.m_group1 mt))); reflexivity.
Qed.

Lemma matched_field_value (s pattern : text) (r : option number) :
  field_value s pattern = Ok r ->
  matched pattern s = match r with Some _ => true | None => false end.
Proof.
  unfold field_value, matched.
  destruct (re_search pattern s) as [[mt|]|e]; simpl; try discriminate.
  - destruct (convert (strip (Re.m_group1 mt))); simpl; [|discriminate].
    now intros [= <-].
  - now intros [= <-].
Qed.

Section Loop.
Variable s : text.

Lemma parse_loop_cons (k p : text) (items : list (text * text)) (d : dict) :
  parse_loop s ((k, p) :: items) d =
  r <- field_value s p ;;
  parse_loop s items match r with
                     | Some v => dict_set k v d
                     | None => d
                     end.
Proof.
  cbn [parse_loop]. rewrite parse_field_value.
  destruct (field_value s p); reflexivity.
Qed.

Lemma parse_loop_other (items : list (text * text)) (d d' : dict)
    (key : text) :
  parse_loop s items d = Ok d' ->
  ~ In key (map fst items) ->
  dict_get key d' = dict_get key d.
Proof.
  revert d; induction items as [|[k p] items IH]; intros d H N.
  - simpl in H. now injection H as ->.
  - rewrite parse_loop_cons in H. cbn [map fst In] in N.
    destruct (field_value s p) as [r|e]; simpl in H; [|discriminate].
    rewrite (IH _ H) by tauto.
    destruct r as [v|]; [|reflexivity].
    apply dict_get_set_other. intros ->. tauto.
Qed.

(** A key of the loop ends up with the value of its own field. *)
Lemma parse_loop_get (items : list (text * text)) (d d' : dict)
    (key pattern : text) :
  NoDup (map fst items) ->
  parse_loop s items d = Ok d' ->
  In (key, pattern) items ->
  exists r, field_value s pattern = Ok r /\
            dict_get key d' = match r with
                              | Some v => Some v
                              | None => dict_get key d
                              end.
Proof.
  revert d; induction items as [|[k p] items IH]; intros d ND H Hin.
  - contradiction.
  - cbn [map fst] in ND. inversion ND as [|? ? Nk ND']; subst.
    rewrite parse_loop_cons in H. cbn [In] in Hin.
    destruct (field_value s p) as [r|e] eqn:Ev; simpl in H; [|discriminate].
    destruct Hin as [E|Hin].
    + injection E as -> ->. exists r. split; [exact Ev|].
      rewrite (parse_loop_other _ _ _ _ H Nk).
      destruct r as [v|]; [apply dict_get_set_same | reflexivity].
    + destruct (IH _ ND' H Hin) as (r' & Ev' & Hg).
      exists r'. split; [exact Ev'|]. rewrite Hg.
      destruct r' as [v'|]; [reflexivity|].
      destruct r as [v|]; [|reflexivity].
      apply dict_get_set_other. intros ->.
      apply Nk. change k with (fst (k, pattern)). now apply in_map.
Qed.

(** The keys come out in the order of the items, whatever the text. *)
Lemma parse_loop_keys (items : list (text * text)) (d d' : dict) :
  NoDup (keys d ++ map fst items) ->
  parse_loop s items d = Ok d' ->
  keys d' = keys d ++ map fst (filter (fun item => matched (snd item) s) items).
Proof.
  revert d; induction items as [|[k p] items IH]; intros d ND H.
  - simpl in H. injection H as ->. simpl. now rewrite app_nil_r.
  - rewrite parse_loop_cons in H. cbn [map fst filter snd] in ND |- *.
    destruct (field_value s p) as [r|e] eqn:Ev; simpl in H; [|discriminate].
    rewrite (matched_field_value _ _ _ Ev).
    assert (Nk : ~ In k (keys d)).
    { intros Hk. apply NoDup_remove_2 in ND. apply ND.
      apply in_or_app. now left. }
    destruct r as [v|].
    + rewrite (IH _) with (2 := H).
      * rewrite keys_set_new by exact Nk. simpl. now rewrite <- app_assoc.
      * rewrite keys_set_new by exact Nk. rewrite <- app_assoc. exact ND.
    + apply IH; [|exact H]. now apply NoDup_remove_1 in ND.
Qed.
End Loop.

Lemma patterns_nodup : NoDup (map fst patterns).
Proof.
  assert (H : forallb (fun k => Nat.eqb 1 (List.length
                (filter (text_eqb k) (map fst patterns))))
              (map fst patterns) = true) by (vm_compute; reflexivity).
  apply (NoDup_count_occ' (list_eq_dec ascii_dec)).
  intros k Hk. rewrite forallb_forall in H. specialize (H k Hk).
  apply Nat.eqb_eq in H.
  rewrite H. clear H Hk. induction (map fst patterns) as [|a l IH]; simpl.
  - reflexivity.
  - destruct (list_eq_dec ascii_dec a k) as [->|N].
    + rewrite text_eqb_refl. simpl. now rewrite IH.
    + destruct (text_eqb k a) eqn:E.
      * apply text_eqb_eq in E. congruence.
      * exact IH.
Qed.

(** ** Conversion of tokens *)

Module TokenFacts.
Import Shape Token.

Lemma in_kind_general (c : ascii) :
  in_kind General c =
  Ascii.eqb "-" c || (is_digit c || (Ascii.eqb "." c || (Ascii.eqb "e" c
    || (Ascii.eqb "E" c || (Ascii.eqb "+" c || false))))).
Proof. reflexivity. Qed.

Lemma in_kind_count (c : ascii) : in_kind Count c = is_digit c.
Proof. unfold in_kind; simpl. apply orb_false_r. Qed.

(** Everything the model needs to know about a digit. *)
Lemma digit_char (c : ascii) :
  is_digit c = true ->
  is_space c = false /\ is_dp_char c = true /\
  Ascii.eqb c "-" = false /\ Ascii.eqb c "+" = false /\
  Ascii.eqb c "." = false /\ Ascii.eqb "." c = false /\
  Ascii.eqb c "e" = false /\ Ascii.eqb c "E" = false /\
  Ascii.eqb "e" (lower_char c) = false /\
  Ascii.eqb (lower_char c) "i" = false /\
  Ascii.eqb (lower_char c) "n" = false /\
  in_kind General c = true /\ (0 <= digit_val c)%Z.
Proof.
  destruct c as [[] [] [] [] [] [] [] []]; intros H; try discriminate H;
    repeat split; try reflexivity; now vm_compute.
Qed.

Lemma lstrip_head (s : text) :
  match s with c :: _ => is_space c = false | [] => True end ->
  lstrip s = s.
Proof. destruct s as [|c s]; simpl; [reflexivity | now intros ->]. Qed.

Lemma strip_no_space (s : text) : no_space s = true -> strip s = s.
Proof.
  intros H. unfold strip.
  rewrite (lstrip_head s).
  - rewrite lstrip_head; [apply rev_involutive|].
    destruct (rev s) as [|c r] eqn:E; [exact I|].
    unfold no_space in H. rewrite forallb_forall in H.
    apply negb_true_iff, H, in_rev. rewrite E. now left.
  - destruct s as [|c s]; [exact I|]. simpl in H.
    apply andb_true_iff in H as [H _]. now apply negb_true_iff.
Qed.

Lemma in_kind_no_space (kd : kind) (tok : text) :
  forallb (in_kind kd) tok = true -> no_space tok = true.
Proof.
  unfold no_space. rewrite !forallb_forall. intros H c Hc.
  apply negb_true_iff. destruct (is_space c) eqn:E; [|reflexivity].
  apply (ReFacts.space_not_in_kind kd) in E. rewrite (H c Hc) in E.
  discriminate.
Qed.

Lemma digits_in_kind (kd : kind) (ds : text) :
  forallb is_digit ds = true -> forallb (in_kind kd) ds = true.
Proof.
  rewrite !forallb_forall. intros H c Hc. specialize (H c Hc).
  destruct kd; [now apply digit_char | now rewrite in_kind_count].
Qed.

Lemma digitpart_from_digits (b : bool) (ds : text) :
  forallb is_digit ds = true -> ds <> [] \/ b = true ->
  digitpart_from b ds = Some ds.
Proof.
  revert b; induction ds as [|c ds IH]; simpl; intros b H N.
  - destruct N as [N | ->]; [now elim N | reflexivity].
  - apply andb_true_iff in H as [Hc H]. rewrite Hc.
    rewrite (IH true H) by now right. reflexivity.
Qed.

Lemma digitpart_digits (ds : text) :
  forallb is_digit ds = true -> ds <> [] -> digitpart ds = Some ds.
Proof. intros. apply digitpart_from_digits; auto. Qed.

Lemma opt_digitpart_digits (ds : text) :
  forallb is_digit ds = true -> opt_digitpart ds = Some ds.
Proof.
  destruct ds as [|c ds]; [reflexivity|]. intros H.
  apply digitpart_digits; [exact H | discriminate].
Qed.

Lemma decimal_value_nonneg (ds : text) :
  forallb is_digit ds = true -> (0 <= decimal_value ds)%Z.
Proof.
  unfold decimal_value.
  assert (G : forall acc, (0 <= acc)%Z -> forallb is_digit ds = true ->
    (0 <= fold_left (fun a c => a * 10 + digit_val c) ds acc)%Z).
  { induction ds as [|c ds IH]; simpl; intros acc Ha H; [exact Ha|].
    apply andb_true_iff in H as [Hc H]. apply IH; [|exact H].
    apply digit_char in Hc. lia. }
  apply G. lia.
Qed.

Lemma contains_app (c : ascii) (a b : text) :
  contains c (a ++ b) = contains c a || contains c b.
Proof. apply existsb_app. Qed.

Lemma digits_no_point (ds : text) :
  forallb is_digit ds = true ->
  contains "." ds = false /\ contains "e" (lower ds) = false.
Proof.
  unfold contains, lower.
  induction ds as [|c ds IH]; cbn [forallb existsb map]; [auto|]. intros H.
  apply andb_true_iff in H as [Hc H]. destruct (IH H) as [-> ->].
  apply digit_char in Hc as (_ & _ & _ & _ & _ & -> & _ & _ & -> & _).
  auto.
Qed.

Lemma split_sign_plain (s : text) :
  match s with
  | c :: _ => Ascii.eqb c "-" = false /\ Ascii.eqb c "+" = false
  | [] => True
  end ->
  split_sign s = (false, s).
Proof. destruct s as [|c s]; simpl; [reflexivity | now intros [-> ->]]. Qed.

Lemma split_sign_digits (minus : bool) (c : ascii) (s : text) :
  Ascii.eqb c "-" = false -> Ascii.eqb c "+" = false ->
  split_sign (sign_text minus ++ c :: s) = (minus, c :: s).
Proof. intros H1 H2. destruct minus; simpl; [reflexivity | now rewrite H1, H2]. Qed.

(** A run of digits converts to the integer it spells, which is not
    negative, unless it has more digits than [int] allows. *)
Lemma convert_digits (tok : text) :
  forallb is_digit tok = true -> tok <> [] ->
  strip tok = tok /\
  convert tok = if List.length tok <=? int_max_str_digits
                then Ok (PyInt (decimal_value tok))
                else Raise (ValueError_int tok).
Proof.
  intros H N.
  assert (S : strip tok = tok).
  { apply strip_no_space, (in_kind_no_space Count), digits_in_kind, H. }
  split; [exact S|]. unfold convert.
  destruct (digits_no_point tok H) as [-> ->]. cbn [orb].
  unfold py_int. rewrite S. rewrite split_sign_plain.
  - rewrite (digitpart_digits tok H N).
    now destruct (List.length tok <=? int_max_str_digits).
  - destruct tok as [|c tok]; [exact I|]. simpl in H.
    apply andb_true_iff in H as [Hc _]. now apply digit_char in Hc.
Qed.

Lemma opening_char (c : ascii) :
  opens_number c = true ->
  Ascii.eqb c "-" = false /\ Ascii.eqb c "+" = false /\
  Ascii.eqb (lower_char c) "i" = false /\
  Ascii.eqb (lower_char c) "n" = false.
Proof.
  destruct c as [[] [] [] [] [] [] [] []]; intros H; try discriminate H;
    repeat split; reflexivity.
Qed.

Lemma not_special (c : ascii) (rest : text) :
  opens_number c = true ->
  text_eqb (lower (c :: rest)) (str "inf") = false /\
  text_eqb (lower (c :: rest)) (str "infinity") = false /\
  text_eqb (lower (c :: rest)) (str "nan") = false.
Proof.
  intros H. apply opening_char in H as (_ & _ & Hi & Hn).
  unfold lower, str. cbn [map list_ascii_of_string text_eqb].
  now rewrite Hi, Hn.
Qed.

Lemma span_digits_stop (ds r : text) :
  forallb is_digit ds = true ->
  match r with c :: _ => is_dp_char c = false | [] => True end ->
  span is_dp_char (ds ++ r) = (ds, r).
Proof.
  intros H Hr. apply span_app; [|exact Hr].
  rewrite forallb_forall in *. intros c Hc. now apply digit_char, H.
Qed.

Lemma wf_expo_parts (e : expo) :
  wf_expo e = true ->
  (e_mark e = "e" \/ e_mark e = "E") /\
  (e_sign e = [] \/ e_sign e = ["+"] \/ e_sign e = ["-"]) /\
  forallb is_digit (e_digits e) = true /\ e_digits e <> [].
Proof.
  unfold wf_expo. rewrite !andb_true_iff, !orb_true_iff, !Ascii.eqb_eq,
    !text_eqb_eq, negb_true_iff, text_eqb_neq. tauto.
Qed.

Lemma exponent_text (e : expo) :
  wf_expo e = true ->
  exponent (expo_text e) = Some (expo_value e) /\
  is_dp_char (e_mark e) = false /\ Ascii.eqb (e_mark e) "." = false /\
  in_kind General (e_mark e) = true /\
  forallb (in_kind General) (e_sign e) = true /\
  contains "e" (lower (expo_text e)) = true.
Proof.
  intros H. apply wf_expo_parts in H as (Hm & Hs & Hd & Nd).
  destruct e as [mark sign ds]; simpl in *.
  assert (Hx : exponent (mark :: sign ++ ds)
               = Some (signed (text_eqb sign ["-"]) (decimal_value ds))).
  { unfold exponent.
    replace (Ascii.eqb mark "e" || Ascii.eqb mark "E") with true
      by (destruct Hm as [-> | ->]; reflexivity).
    destruct ds as [|d ds]; [now elim Nd|].
    assert (Hc : is_digit d = true)
      by (simpl in Hd; now apply andb_true_iff in Hd).
    apply digit_char in Hc as (_ & _ & H1 & H2 & _).
    destruct Hs as [-> | [-> | ->]].
    - cbn [app]. rewrite (split_sign_plain (d :: ds)) by (split; assumption).
      cbv beta iota. now rewrite (digitpart_digits (d :: ds) Hd Nd).
    - change (split_sign (["+"] ++ d :: ds)) with (false, d :: ds).
      cbv beta iota. now rewrite (digitpart_digits (d :: ds) Hd Nd).
    - change (split_sign (["-"] ++ d :: ds)) with (true, d :: ds).
      cbv beta iota. now rewrite (digitpart_digits (d :: ds) Hd Nd). }
  unfold expo_text, expo_value; cbn [e_mark e_sign e_digits].
  split; [exact Hx|].
  destruct Hm as [-> | ->], Hs as [-> | [-> | ->]]; repeat split; reflexivity.
Qed.

Lemma wf_parts (t : token) :
  wf t = true ->
  forallb is_digit (t_int t) = true /\
  forallb is_digit (frac_digits t) = true /\
  t_int t ++ frac_digits t <> [] /\
  match t_exp t with Some e => wf_expo e = true | None => True end.
Proof.
  unfold wf. rewrite !andb_true_iff, negb_true_iff, text_eqb_neq.
  intros [[[H1 H2] H3] H4]. repeat split; try assumption.
  destruct (t_exp t); [exact H4 | exact I].
Qed.

Lemma token_text_body (t : token) :
  token_text t = sign_text (t_minus t) ++ body t.
Proof. reflexivity. Qed.

Lemma body_opens (t : token) :
  wf t = true ->
  exists c rest, body t = c :: rest /\ opens_number c = true.
Proof.
  intros H. apply wf_parts in H as (Hi & Hf & Hn & _).
  unfold body. destruct (t_int t) as [|c ip].
  - unfold frac_digits in Hn. destruct (t_frac t) as [f|].
    + eexists _, _. split; [reflexivity | reflexivity].
    + now elim Hn.
  - exists c, (ip ++ match t_frac t with Some f => "." :: f | None => [] end
                  ++ match t_exp t with Some e => expo_text e | None => [] end).
    split; [reflexivity|]. simpl in Hi. apply andb_true_iff in Hi as [Hc _].
    unfold opens_number. now rewrite Hc.
Qed.

(** The characters of a token are those of the set [[-\d\.eE\+]]. *)
Lemma token_text_in_kind (t : token) :
  wf t = true -> forallb (in_kind General) (token_text t) = true.
Proof.
  intros H. apply wf_parts in H as (Hi & Hf & _ & He).
  unfold token_text. rewrite !forallb_app.
  rewrite (digits_in_kind General _ Hi).
  assert (H1 : forallb (in_kind General) (if t_minus t then ["-"] else []) = true)
    by (destruct (t_minus t); reflexivity).
  rewrite H1. unfold frac_digits in Hf.
  destruct (t_frac t) as [f|].
  - cbn [forallb]. rewrite (digits_in_kind General _ Hf).
    destruct (t_exp t) as [e|]; [|reflexivity].
    unfold expo_text. cbn [forallb]. rewrite forallb_app.
    pose proof (wf_expo_parts e He) as (_ & _ & Hd & _).
    apply exponent_text in He as (_ & _ & _ & -> & -> & _).
    now rewrite (digits_in_kind General _ Hd).
  - destruct (t_exp t) as [e|]; [|reflexivity].
    unfold expo_text. cbn [forallb]. rewrite forallb_app.
    pose proof (wf_expo_parts e He) as (_ & _ & Hd & _).
    apply exponent_text in He as (_ & _ & _ & -> & -> & _).
    now rewrite (digits_in_kind General _ Hd).
Qed.

Lemma token_text_nonempty (t : token) : wf t = true -> token_text t <> [].
Proof.
  intros H. destruct (body_opens t H) as (c & rest & E & _).
  rewrite token_text_body, E. destruct (t_minus t); discriminate.
Qed.

Lemma strip_token (t : token) : wf t = true -> strip (token_text t) = token_text t.
Proof.
  intros H. now apply strip_no_space, (in_kind_no_space General),
    token_text_in_kind.
Qed.

Lemma split_sign_token (t : token) :
  wf t = true -> split_sign (token_text t) = (t_minus t, body t).
Proof.
  intros H. destruct (body_opens t H) as (c & rest & E & Hc).
  rewrite token_text_body, E.
  apply opening_char in Hc as (H1 & H2 & _). now apply split_sign_digits.
Qed.

Lemma py_int_token (t : token) :
  wf t = true -> within_limit t = true ->
  t_frac t = None -> t_exp t = None ->
  py_int (token_text t) = Some (signed (t_minus t) (decimal_value (t_int t))).
Proof.
  intros H Hl Hf He. unfold py_int.
  rewrite (strip_token t H), (split_sign_token t H).
  apply wf_parts in H as (Hi & _ & Hn & _).
  unfold body, frac_digits, within_limit in *. rewrite Hf, He in *.
  cbn [app] in *. rewrite app_nil_r in *.
  now rewrite (digitpart_digits _ Hi Hn), Hl.
Qed.

Lemma py_float_token (t : token) :
  wf t = true ->
  py_float (token_text t) =
  Some (Finite (decimal_Q
    (signed (t_minus t) (decimal_value (t_int t ++ frac_digits t)))
    (exp10 t))).
Proof.
  intros H. unfold py_float.
  rewrite (strip_token t H), (split_sign_token t H).
  destruct (body_opens t H) as (c & rest & E & Hc).
  destruct (not_special c rest Hc) as (N1 & N2 & N3).
  rewrite <- E in N1, N2, N3. rewrite N1, N2, N3. cbn [orb].
  clear c rest E Hc N1 N2 N3.
  apply wf_parts in H as (Hi & Hf & Hn & He).
  unfold body, exp10, frac_digits in *.
  destruct t as [minus ip fr ex]; cbn [t_minus t_int t_frac t_exp] in *.
  assert (Hex : exponent match ex with Some e => expo_text e | None => [] end
                = Some match ex with Some e => expo_value e | None => 0%Z end
                /\ match (match ex with Some e => expo_text e | None => [] end)
                   with
                   | c :: _ => is_dp_char c = false /\ Ascii.eqb c "." = false
                   | [] => True
                   end).
  { destruct ex as [e|]; [|split; [reflexivity | exact I]].
    apply exponent_text in He as (He & Hm & Hp & _).
    split; [exact He | split; assumption]. }
  destruct Hex as [Hex Hstop].
  set (et := match ex with Some e => expo_text e | None => [] end) in *.
  set (ev := match ex with Some e => expo_value e | None => 0%Z end) in *.
  destruct fr as [f|].
  - match goal with
    | |- context [span is_dp_char ?x] => change x with (ip ++ "." :: f ++ et)
    end.
    rewrite (span_digits_stop ip ("." :: f ++ et) Hi eq_refl).
    rewrite Ascii.eqb_refl.
    rewrite (span_digits_stop f et Hf)
      by (destruct et; [exact I | apply Hstop]).
    rewrite (opt_digitpart_digits ip Hi), (opt_digitpart_digits f Hf), Hex.
    destruct (ip ++ f) as [|a l] eqn:Em; [now elim Hn | reflexivity].
  - match goal with
    | |- context [span is_dp_char ?x] => change x with (ip ++ et)
    end.
    rewrite (span_digits_stop ip et Hi)
      by (destruct et; [exact I | apply Hstop]).
    assert (Hr : (let '(fp, r2) :=
                    match et with
                    | c :: r => if Ascii.eqb c "." then span is_dp_char r
                                else ([], et)
                    | [] => ([], et)
                    end in (fp, r2)) = ([], et)).
    { destruct et as [|c r]; [reflexivity|].
      destruct Hstop as [_ ->]. reflexivity. }
    destruct et as [|c r].
    + cbv beta iota. rewrite (opt_digitpart_digits ip Hi). cbn [opt_digitpart].
      rewrite Hex. rewrite app_nil_r in *.
      destruct ip as [|a l]; [now elim Hn | reflexivity].
    + destruct Hstop as [_ Hp]. rewrite Hp. cbv beta iota.
      rewrite (opt_digitpart_digits ip Hi). cbn [opt_digitpart].
      rewrite Hex. rewrite app_nil_r in *.
      destruct ip as [|a l]; [now elim Hn | reflexivity].
Qed.

Lemma lower_app (a b : text) : lower (a ++ b) = lower a ++ lower b.
Proof. apply map_app. Qed.

(** Lines 80-83 on a token of the specification: the typed value is the
    number the token denotes. *)
Lemma convert_token (t : token) :
  wf t = true -> within_limit t = true ->
  convert (token_text t) = Ok (token_number t).
Proof.
  intros H Hl. unfold convert, token_number.
  rewrite (py_float_token t H).
  pose proof (wf_parts t H) as (Hi & Hf & Hn & He).
  unfold exp10, frac_digits in *.
  destruct (t_frac t) as [f|] eqn:Ef.
  - replace (contains "." (token_text t)) with true; [reflexivity|].
    unfold token_text. rewrite Ef, !contains_app.
    cbn [contains existsb]. rewrite Ascii.eqb_refl.
    cbn [orb]. now rewrite !orb_true_r.
  - destruct (t_exp t) as [e|] eqn:Ee.
    + replace (contains "e" (lower (token_text t))) with true;
        [now rewrite orb_true_r|].
      unfold token_text. rewrite Ef, Ee, !lower_app, !contains_app.
      apply exponent_text in He as (_ & _ & _ & _ & _ & ->).
      now rewrite !orb_true_r.
    + rewrite (py_int_token t H Hl Ef Ee).
      replace (contains "." (token_text t) || contains "e" (lower (token_text t)))
        with false; [reflexivity|].
      unfold token_text. rewrite Ef, Ee, !app_nil_r, lower_app, !contains_app.
      destruct (digits_no_point _ Hi) as [-> ->].
      destruct (t_minus t); reflexivity.
Qed.

(** A token of digits only reads as its digits. *)
Lemma unsigned_text (t : token) :
  unsigned_digits t = true -> token_text t = t_int t.
Proof.
  unfold unsigned_digits, token_text.
  destruct (t_minus t), (t_frac t), (t_exp t); try discriminate.
  intros _. cbn [app]. now rewrite app_nil_r.
Qed.

Lemma accepted_parts (kd : kind) (t : token) :
  accepted kd t = true ->
  wf t = true /\ within_limit t = true /\
  match kd with General => True | Count => unsigned_digits t = true end.
Proof.
  unfold accepted. rewrite !andb_true_iff. intros [[H Hl] Hk].
  repeat split; auto. destruct kd; [exact I | exact Hk].
Qed.

(** An accepted token is captured whole by its field. *)
Lemma accepted_token_of (kd : kind) (t : token) :
  accepted kd t = true -> token_of kd (token_text t) = true.
Proof.
  intros Ha. apply accepted_parts in Ha as (H & _ & Hk).
  unfold token_of.
  destruct (token_text t) as [|c r] eqn:E;
    [now apply token_text_nonempty in E|].
  rewrite <- E. destruct kd.
  - now apply token_text_in_kind.
  - rewrite (unsigned_text t Hk). apply digits_in_kind.
    now apply wf_parts in H.
Qed.

End TokenFacts.

(** ** One field on a text *)

Module FieldFacts.
Import Shape Token ReFacts TokenFacts.

Section Field.
Variables (label : text) (kd : kind) (pattern : text).
Hypothesis Hc : Re.compile pattern = Some (field_nodes label (kind_set kd)).

Lemma re_search_compiled (s : text) :
  re_search pattern s = Ok (Re.search (field_nodes label (kind_set kd)) s).
Proof. unfold re_search. now rewrite Hc. Qed.

Lemma re_search_absent (s : text) :
  occurs label s = false -> re_search pattern s = Ok None.
Proof.
  intros H. rewrite re_search_compiled. f_equal.
  unfold occurs in H. destruct (find label s) eqn:E; [discriminate|].
  now apply (search_from_absent label kd 0 0).
Qed.

Lemma re_search_first (pre rest tok : text) :
  find label (pre ++ rest) = Some (List.length pre) ->
  field_match label kd rest = Some tok ->
  re_search pattern (pre ++ rest) = Ok (Some (Re.mkM (List.length pre) tok)).
Proof.
  intros Hf Hm. rewrite re_search_compiled. f_equal.
  now apply (search_from_first label kd 0 0).
Qed.

Lemma re_search_sound (s : text) (m : Re.rmatch) :
  re_search pattern s = Ok (Some m) ->
  exists pre rest,
    s = pre ++ rest /\ Re.m_start m = List.length pre /\
    field_match label kd rest = Some (Re.m_group1 m).
Proof.
  rewrite re_search_compiled. intros [= H].
  apply search_from_sound in H as (pre & rest & E & Hs & Hm).
  now exists pre, rest.
Qed.

Lemma field_value_absent (s : text) :
  occurs label s = false -> field_value s pattern = Ok None.
Proof. intros H. unfold field_value. now rewrite re_search_absent. Qed.

(** The field on a text whose first occurrence of the label opens a
    line with an accepted token. *)
Lemma field_value_token (t : token) (pre w1 w2 post : text) :
  accepted kd t = true ->
  blank w1 = true -> blank w2 = true -> stops kd post = true ->
  find label (pre ++ report_line label w1 w2 (token_text t) ++ post)
    = Some (List.length pre) ->
  field_value (pre ++ report_line label w1 w2 (token_text t) ++ post) pattern
    = Ok (Some (token_number t)).
Proof.
  intros Ha H1 H2 Hp Hf. unfold field_value.
  rewrite (re_search_first pre _ (token_text t) Hf).
  - cbn [bind Re.m_group1].
    destruct (accepted_parts kd t Ha) as (Hw & Hl & _).
    now rewrite (strip_token t Hw), (convert_token t Hw Hl).
  - unfold report_line. rewrite <- !app_assoc. cbn [app].
    rewrite <- app_assoc.
    apply field_match_complete; auto using accepted_token_of.
Qed.

(** A field of digits does not match, or captures a run of digits: its
    value is the natural number the run spells, unless the run has more
    digits than [int] allows, and then the field raises. *)
Lemma field_value_count (s : text) :
  kd = Count ->
  field_value s pattern = Ok None \/
  exists tok, forallb is_digit tok = true /\ tok <> [] /\
              field_value s pattern
              = if List.length tok <=? int_max_str_digits
                then Ok (Some (PyInt (decimal_value tok)))
                else Raise (ValueError_int tok).
Proof.
  intros Hk. unfold field_value.
  destruct (re_search pattern s) as [[m|]|e] eqn:E.
  - right. cbn [bind].
    apply re_search_sound in E as (pre & rest & _ & _ & Hm).
    apply field_match_sound in Hm as (w1 & w2 & post & _ & _ & _ & Ht & _).
    rewrite Hk in Ht.
    exists (Re.m_group1 m). unfold token_of in Ht.
    destruct (Re.m_group1 m) as [|c tok] eqn:Eg; [discriminate|].
    assert (Hd : forallb is_digit (c :: tok) = true).
    { rewrite forallb_forall in *. intros a Ha.
      rewrite <- in_kind_count. now apply Ht. }
    split; [exact Hd|]. split; [discriminate|]. cbn [bind].
    destruct (convert_digits (c :: tok) Hd) as [-> ->]; [discriminate|].
    now destruct (List.length (c :: tok) <=? int_max_str_digits).
  - now left.
  - rewrite re_search_compiled in E. discriminate.
Qed.
End Field.

Lemma starts_with_find (label : text) (i : nat) (pre rest : text) :
  starts_with label rest = true -> find_from label i (pre ++ rest) <> None.
Proof.
  intros H. revert i; induction pre as [|c pre IH]; intros i; simpl.
  - destruct rest; simpl; rewrite H; discriminate.
  - destruct (starts_with label (c :: pre ++ rest)); [discriminate | apply IH].
Qed.

(** A match of a field's pattern contains the literal label. *)
Lemma matched_occurs (label : text) (kd : kind) (pattern s : text)
    (m : Re.rmatch) :
  Re.compile pattern = Some (field_nodes label (kind_set kd)) ->
  re_search pattern s = Ok (Some m) -> occurs label s = true.
Proof.
  intros Hc H. apply (re_search_sound label kd pattern Hc) in H
    as (pre & rest & -> & _ & Hm).
  unfold field_match in Hm.
  destruct (starts_with label rest) eqn:E; [|discriminate].
  unfold occurs, find.
  pose proof (starts_with_find label 0 pre rest E).
  now destruct (find_from label 0 (pre ++ rest)).
Qed.

End FieldFacts.

(** ** The whole function, one key at a time *)

Module ParseFacts.
Import Shape Token ReFacts TokenFacts FieldFacts.

Lemma parse_get (s : text) (d : dict) (label pattern : text) :
  In (label, pattern) patterns ->
  parse_stats_output s = Ok d ->
  exists r, field_value s pattern = Ok r /\ dict_get label d = r.
Proof.
  intros Hin H.
  destruct (parse_loop_get s patterns [] d label pattern
              patterns_nodup H Hin) as (r & Hr & Hg).
  exists r. split; [exact Hr|]. rewrite Hg. now destruct r.
Qed.

Lemma parse_get_unknown (s : text) (d : dict) (key : text) :
  parse_stats_output s = Ok d -> ~ In key field_names -> dict_get key d = None.
Proof. intros H N. now rewrite (parse_loop_other s patterns [] d key H N). Qed.

Lemma parse_loop_single (s : text) (label : text) (v : number)
    (items : list (text * text)) (d : dict) :
  NoDup (map fst items) ->
  (forall k p, In (k, p) items -> k <> label -> field_value s p = Ok None) ->
  (forall p, In (label, p) items -> field_value s p = Ok (Some v)) ->
  parse_loop s items d =
  Ok (if existsb (text_eqb label) (map fst items) then dict_set label v d
      else d).
Proof.
  revert d; induction items as [|[k p] items IH]; intros d ND Ho Hl.
  - reflexivity.
  - rewrite parse_loop_cons. cbn [map fst existsb] in *.
    inversion ND as [|? ? Nk ND']; subst.
    destruct (text_eqb label k) eqn:E.
    + apply text_eqb_eq in E. subst k.
      rewrite (Hl p) by now left. cbn [bind orb].
      rewrite IH; auto.
      * replace (existsb (text_eqb label) (map fst items)) with false;
          [reflexivity|].
        symmetry. apply not_true_is_false. intros Hex.
        apply existsb_exists in Hex as (x & Hx & Ex).
        apply text_eqb_eq in Ex. now subst x.
      * intros k p' Hin. apply Ho. now right.
      * intros p' Hin. elim Nk. change label with (fst (label, p')).
        now apply in_map.
    + apply text_eqb_neq in E.
      rewrite (Ho k p) by (auto; now left). cbn [bind orb].
      apply IH; auto.
      * intros k' p' Hin. apply Ho. now right.
      * intros p' Hin. apply Hl. now right.
Qed.

(** When no other label occurs, the result is the one binding. *)
Lemma parse_single (s label pattern : text) (v : number) :
  In (label, pattern) patterns ->
  field_value s pattern = Ok (Some v) ->
  only_label label s = true ->
  parse_stats_output s = Ok [(label, v)].
Proof.
  intros Hin Hv Ho. unfold parse_stats_output.
  rewrite (parse_loop_single s label v patterns [] patterns_nodup).
  - replace (existsb (text_eqb label) (map fst patterns)) with true;
      [reflexivity|].
    symmetry. apply existsb_exists. exists label. split.
    + change label with (fst (label, pattern)). now apply in_map.
    + apply text_eqb_refl.
  - intros k p Hk Hne.
    destruct (pattern_shape k p Hk) as (kd & _ & Hc).
    apply (field_value_absent k kd p Hc).
    unfold only_label in Ho. rewrite forallb_forall in Ho.
    assert (Hkn : In k field_names)
      by (change k with (fst (k, p)); now apply in_map).
    specialize (Ho k Hkn). apply orb_true_iff in Ho as [Ho|Ho].
    + apply text_eqb_eq in Ho. contradiction.
    + now apply negb_true_iff in Ho.
  - intros p Hp.
    assert (p = pattern); [|now subst].
    clear - Hin Hp. pose proof patterns_nodup as ND.
    induction patterns as [|[k q] l IH]; [contradiction|].
    cbn [map fst] in ND. inversion ND as [|? ? Nk ND']; subst.
    destruct Hin as [E1|H1], Hp as [E2|H2].
    + congruence.
    + injection E1 as -> ->. elim Nk.
      change label with (fst (label, p)). now apply in_map.
    + injection E2 as -> ->. elim Nk.
      change label with (fst (label, pattern)). now apply in_map.
    + auto.
Qed.

Lemma line_end_stops (kd : kind) (post : text) :
  line_end post = true -> stops kd post = true.
Proof.
  destruct post as [|c post]; [reflexivity|]. simpl.
  intros H. apply Ascii.eqb_eq in H. subst c. now destruct kd.
Qed.

End ParseFacts.

(** * The laws of the specification *)

Import Shape Token.

Lemma parse_no_label (s : text) :
  no_label s = true -> parse_stats_output s = Ok [].
Proof.
  intros H. unfold parse_stats_output.
  (* the key [[]] is none of the ten *)
  rewrite (ParseFacts.parse_loop_single s [] (PyInt 0) patterns []
             patterns_nodup).
  - reflexivity.
  - intros k p Hk _.
    destruct (ReFacts.pattern_shape k p Hk) as (kd & _ & Hc).
    apply (FieldFacts.field_value_absent k kd p Hc).
    unfold no_label in H. rewrite forallb_forall in H.
    apply negb_true_iff, H. change k with (fst (k, p)). now apply in_map.
  - intros p Hp. exfalso. revert Hp. clear.
    cbv [patterns In]. intros H.
    repeat (destruct H as [H|H]; [discriminate H|]). exact H.
Qed.

(** ** C1: extraction, field by field *)

(** C1, as worded, fails: the three count fields capture digits only, so
    the numeric token [-5] after "Total number of pixels" is not
    extracted. *)
Lemma extraction_for_every_token_fails : ~ extraction_for_every_token.
Proof.
  intros H.
  destruct (H (str "Total number of pixels") Count
              (mkToken true (str "5") None None)
              [] (str " ") (str " ") [])
    as (d & Hd & Hg); try reflexivity.
  - simpl. tauto.
  - vm_compute in Hd. injection Hd as <-. discriminate Hg.
Qed.

(** C1 (amended).  For each of the ten fields: when the first occurrence
    of the label in the text is followed by whitespace, a colon,
    whitespace and a numeric token the field accepts (any numeric token
    for the seven statistics, digits only for the three counts, and at
    most 4300 digits in a token without point and exponent, the limit of
    [int]) that is not continued by a further character of the field's
    set, the
    field's iteration binds the key to the number the token denotes --
    an integer without point and exponent, a floating-point number
    otherwise -- and so does every mapping the function returns; when no
    other label occurs the function returns exactly that binding.  When
    the label occurs nowhere in a text, the field's iteration leaves the
    dictionary as it is and raises nothing, the key is absent from every
    mapping returned, and a text with no label at all yields the empty
    mapping. *)
Theorem field_extraction (label : text) (kd : kind) (t : token)
    (pre w1 w2 post other : text) :
  In (label, kd) fields ->
  accepted kd t = true ->
  blank w1 = true -> blank w2 = true -> stops kd post = true ->
  find label (pre ++ report_line label w1 w2 (token_text t) ++ post)
    = Some (List.length pre) ->
  occurs label other = false ->
  let s := pre ++ report_line label w1 w2 (token_text t) ++ post in
  exists pattern,
    In (label, pattern) patterns /\
    (forall d0, parse_field s d0 (label, pattern)
                = Ok (dict_set label (token_number t) d0)) /\
    (forall d, parse_stats_output s = Ok d ->
               dict_get label d = Some (token_number t)) /\
    (only_label label s = true ->
     parse_stats_output s = Ok [(label, token_number t)]) /\
    (forall d0, parse_field other d0 (label, pattern) = Ok d0) /\
    (forall d, parse_stats_output other = Ok d -> dict_get label d = None) /\
    (no_label other = true -> parse_stats_output other = Ok []).
Proof.
  intros Hin Ha H1 H2 Hp Hf Ho s.
  destruct (ReFacts.field_pattern label kd Hin) as (pattern & Hpat & Hc).
  pose proof (FieldFacts.field_value_token label kd pattern Hc t pre w1 w2
                post Ha H1 H2 Hp Hf) as Hv.
  fold s in Hv.
  pose proof (FieldFacts.field_value_absent label kd pattern Hc other Ho) as Hn.
  exists pattern. split; [exact Hpat|].
  split; [|split; [|split; [|split; [|split]]]].
  - intros d0. now rewrite parse_field_value, Hv.
  - intros d Hd.
    destruct (ParseFacts.parse_get s d label pattern Hpat Hd) as (r & Hr & ->).
    congruence.
  - intros Hl. now apply (ParseFacts.parse_single s label pattern).
  - intros d0. now rewrite parse_field_value, Hn.
  - intros d Hd.
    destruct (ParseFacts.parse_get other d label pattern Hpat Hd)
      as (r & Hr & ->).
    congruence.
  - apply parse_no_label.
Qed.

(** The line [  Pixel sum         :   1.234E+02] followed by a line
    break, and a text that only reports a mean. *)
Lemma field_extraction_witness :
  let s := str "  Pixel sum         :   1.234E+02" ++ ["010"] in
  let other := str "Pixel mean : 3" in
  exists pattern,
    In (str "Pixel sum", pattern) patterns /\
    (forall d0, parse_field s d0 (str "Pixel sum", pattern)
                = Ok (dict_set (str "Pixel sum")
                        (PyFloat (Finite (617 # 5))) d0)) /\
    (forall d, parse_stats_output s = Ok d ->
               dict_get (str "Pixel sum") d = Some (PyFloat (Finite (617 # 5)))) /\
    (only_label (str "Pixel sum") s = true ->
     parse_stats_output s = Ok [(str "Pixel sum", PyFloat (Finite (617 # 5)))]) /\
    (forall d0, parse_field other d0 (str "Pixel sum", pattern) = Ok d0) /\
    (forall d, parse_stats_output other = Ok d ->
               dict_get (str "Pixel sum") d = None) /\
    (no_label other = true -> parse_stats_output other = Ok []).
Proof.
  apply (field_extraction (str "Pixel sum") General
           (mkToken false (str "1") (Some (str "234"))
                    (Some (mkExpo "E" (str "+") (str "02"))))
           (str "  ") (str "         ") (str "   ") ["010"]
           (str "Pixel mean : 3")).
  - simpl. tauto.
  - reflexivity.
  - reflexivity.
  - reflexivity.
  - reflexivity.
  - reflexivity.
  - reflexivity.
Defined.

(** ** C8: whitespace around the colon *)

Lemma find_from_head (label : text) (i : nat) (s : text) :
  starts_with label s = true -> find_from label i s = Some i.
Proof. intros H. destruct s; simpl; now rewrite H. Qed.

(** C8, as worded, fails: the numeric value [-3] on a line of the count
    field "No. of pixels excluded" is not extracted, whatever the
    whitespace. *)
Lemma tolerance_for_every_value_fails : ~ tolerance_for_every_value.
Proof.
  intros H.
  destruct (H (str "No. of pixels excluded") Count
              (mkToken true (str "3") None None)) as (v & Hv);
    try reflexivity.
  - simpl. tauto.
  - destruct (Hv ["009"] (str "  ")) as (d & Hd & Hg); try reflexivity.
    vm_compute in Hd. injection Hd as <-. discriminate Hg.
Qed.

(** C8 (amended).  For each field and every two choices of non-empty
    whitespace on the two sides of the colon: the field's pattern,
    applied where the label starts, captures the same thing from
    [label, whitespace, colon, whitespace, rest] for both choices,
    whatever [rest] is; and when the line carries a numeric value the
    field accepts (digits only for the three counts, and at most 4300
    digits in a value without point and exponent, the limit of [int])
    and ends there, the
    field's iteration binds the key to the number that value denotes,
    every mapping returned holds that binding, and when no other label
    occurs the function returns exactly that binding -- the same for
    every amount of whitespace. *)
Theorem whitespace_tolerance (label : text) (kd : kind) (t : token)
    (w1 w2 v1 v2 post : text) :
  In (label, kd) fields ->
  accepted kd t = true ->
  blank w1 = true -> blank w2 = true ->
  blank v1 = true -> blank v2 = true ->
  line_end post = true ->
  let s := report_line label w1 w2 (token_text t) ++ post in
  exists pattern p,
    In (label, pattern) patterns /\ Re.compile pattern = Some p /\
    (forall rest,
       Re.match_here p (report_line label w1 w2 rest)
       = Re.match_here p (report_line label v1 v2 rest)) /\
    (forall d0, parse_field s d0 (label, pattern)
                = Ok (dict_set label (token_number t) d0)) /\
    (forall d, parse_stats_output s = Ok d ->
               dict_get label d = Some (token_number t)) /\
    (only_label label s = true ->
     parse_stats_output s = Ok [(label, token_number t)]).
Proof.
  intros Hin Ha H1 H2 H3 H4 Hp s.
  destruct (ReFacts.field_pattern label kd Hin) as (pattern & Hpat & Hc).
  assert (Hf : find label ([] ++ s) = Some (List.length (@nil ascii))).
  { unfold s, report_line, find. rewrite <- app_assoc. cbn [app List.length].
    apply find_from_head, starts_with_app. }
  pose proof (FieldFacts.field_value_token label kd pattern Hc t [] w1 w2
                post Ha H1 H2 (ParseFacts.line_end_stops kd post Hp) Hf) as Hv.
  cbn [app] in Hv. fold s in Hv.
  exists pattern, (field_nodes label (kind_set kd)).
  split; [exact Hpat|]. split; [exact Hc|].
  split; [|split; [|split]].
  - intros rest. rewrite !ReFacts.match_here_field.
    now apply ReFacts.field_match_whitespace.
  - intros d0. now rewrite parse_field_value, Hv.
  - intros d Hd.
    destruct (ParseFacts.parse_get s d label pattern Hpat Hd) as (r & Hr & ->).
    congruence.
  - intros Hl. now apply (ParseFacts.parse_single s label pattern).
Qed.

(** "Number of pixels used", a tab and two blanks before the colon, one
    blank after it, against one blank and five. *)
Lemma whitespace_tolerance_witness :
  let label := str "Number of pixels used" in
  let s := label ++ "009" :: str "  : 1024" in
  exists pattern p,
    In (label, pattern) patterns /\ Re.compile pattern = Some p /\
    (forall rest,
       Re.match_here p (report_line label ("009" :: str "  ") (str " ") rest)
       = Re.match_here p (report_line label (str " ") (str "     ") rest)) /\
    (forall d0, parse_field s d0 (label, pattern)
                = Ok (dict_set label (PyInt 1024) d0)) /\
    (forall d, parse_stats_output s = Ok d ->
               dict_get label d = Some (PyInt 1024)) /\
    (only_label label s = true ->
     parse_stats_output s = Ok [(label, PyInt 1024)]).
Proof.
  apply (whitespace_tolerance (str "Number of pixels used") Count
           (mkToken false (str "1024") None None)
           ("009" :: str "  ") (str " ") (str " ") (str "     ") []).
  - simpl. tauto.
  - reflexivity.
  - reflexivity.
  - reflexivity.
  - reflexivity.
  - reflexivity.
  - reflexivity.
Defined.

(** ** C2: the type of a value follows the form of its token *)



(** ** C3: conversion of a matched token *)

(** C3 (failing inputs).  The set [[-\d\.eE\+]] of the seven statistics
    also matches tokens that are no numbers: on [Pixel sum : -] the
    pattern matches and captures [-], which [int] rejects, and on
    [Pixel mean : 1.2.3] it captures [1.2.3], which [float] rejects; on
    both texts the function raises [ValueError] instead of returning. *)
Theorem conversion_raises_on_matched_token :
  (exists pattern m,
     In (str "Pixel sum", pattern) patterns /\
     re_search pattern (str "Pixel sum : -") = Ok (Some m) /\
     Re.m_group1 m = str "-")
  /\ parse_stats_output (str "Pixel sum : -") = Raise (ValueError_int (str "-"))
  /\ parse_stats_output (str "Pixel mean : 1.2.3")
     = Raise (ValueError_float (str "1.2.3")).
Proof.
  split; [|split; vm_compute; reflexivity].
  exists (str "Pixel sum\s+:\s+([-\d\.eE\+]+)"), (Re.mkM 0 (str "-")).
  split; [simpl; tauto|]. split; vm_compute; reflexivity.
Qed.

(** ** C10: the three counts *)

(** C10.  A value bound to one of the three count fields is an integer
    and is not negative.  On every text such a field either does not
    match or captures a non-empty run of digits, which is converted by
    [int] to the natural number it spells -- never by [float] -- and is
    refused, with the [ValueError] of [int], only when it has more than
    4300 digits.  The seven statistics differ: [Pixel sum : -7] binds a
    negative integer and [Pixel sum : 0.5] a floating-point number. *)
Theorem count_fields_natural (s : text) (d : dict) (label : text)
    (v : number) :
  In (label, Count) fields ->
  parse_stats_output s = Ok d ->
  dict_get label d = Some v ->
  (exists z, v = PyInt z /\ (0 <= z)%Z)
  /\ (exists pattern, In (label, pattern) patterns /\
        forall s',
          field_value s' pattern = Ok None \/
          exists tok,
            forallb is_digit tok = true /\ tok <> [] /\
            field_value s' pattern
            = if List.length tok <=? int_max_str_digits
              then Ok (Some (PyInt (decimal_value tok)))
              else Raise (ValueError_int tok))
  /\ parse_stats_output (str "Pixel sum : -7")
     = Ok [(str "Pixel sum", PyInt (-7))]
  /\ parse_stats_output (str "Pixel sum : 0.5")
     = Ok [(str "Pixel sum", PyFloat (Finite (1 # 2)))].
Proof.
  intros Hin Hd Hg.
  destruct (ReFacts.field_pattern label Count Hin) as (pattern & Hpat & Hc).
  split; [|split; [|split; vm_compute; reflexivity]].
  - destruct (ParseFacts.parse_get s d label pattern Hpat Hd) as (r & Hr & E).
    rewrite Hg in E. subst r.
    destruct (FieldFacts.field_value_count label Count pattern Hc s eq_refl)
      as [Hn|(tok & Ht & _ & Hv)]; [congruence|].
    destruct (List.length tok <=? int_max_str_digits); [|congruence].
    exists (decimal_value tok). split; [congruence|].
    now apply TokenFacts.decimal_value_nonneg.
  - exists pattern. split; [exact Hpat|]. intros s'.
    exact (FieldFacts.field_value_count label Count pattern Hc s' eq_refl).
Qed.

(** A report of 4096 pixels, after a negative sum. *)
Lemma count_fields_natural_witness :
  (exists z, PyInt 4096 = PyInt z /\ (0 <= z)%Z)
  /\ (exists pattern, In (str "Total number of pixels", pattern) patterns /\
        forall s',
          field_value s' pattern = Ok None \/
          exists tok,
            forallb is_digit tok = true /\ tok <> [] /\
            field_value s' pattern
            = if List.length tok <=? int_max_str_digits
              then Ok (Some (PyInt (decimal_value tok)))
              else Raise (ValueError_int tok))
  /\ parse_stats_output (str "Pixel sum : -7")
     = Ok [(str "Pixel sum", PyInt (-7))]
  /\ parse_stats_output (str "Pixel sum : 0.5")
     = Ok [(str "Pixel sum", PyFloat (Finite (1 # 2)))].
Proof.
  apply (count_fields_natural
           (str "Pixel sum : -1.5 Total number of pixels : 4096")
           [(str "Pixel sum", PyFloat (Finite (-3 # 2)));
            (str "Total number of pixels", PyInt 4096)]
           (str "Total number of pixels") (PyInt 4096)).
  - simpl. tauto.
  - vm_compute. reflexivity.
  - reflexivity.
Defined.

(** The limit of [int] at work: a count of 4301 digits is matched whole
    and refused by the conversion. *)
Lemma long_count_raises :
  parse_stats_output (str "Total number of pixels : " ++ repeat "1" 4301)
  = Raise (ValueError_int (repeat "1" 4301)).
Proof. vm_compute. reflexivity. Qed.

(** ** C6: the period of "No. of pixels excluded" *)

(** C6.  The field "No. of pixels excluded" is extracted only from a
    text that contains its label letter for letter: whenever a returned
    mapping binds the key, the literal label occurs in the text; and
    applied to a text that reads [No], any character other than a
    period, and anything after it, the pattern does not match.  The same
    pattern with the period left unescaped would match
    [NoX of pixels excluded : 5]; the function extracts nothing from
    it. *)
Theorem literal_period (s : text) (d : dict) (v : number) (c : ascii)
    (rest : text) :
  parse_stats_output s = Ok d ->
  dict_get (str "No. of pixels excluded") d = Some v ->
  c <> "." ->
  occurs (str "No. of pixels excluded") s = true
  /\ (exists pattern p,
        In (str "No. of pixels excluded", pattern) patterns /\
        Re.compile pattern = Some p /\
        Re.match_here p (str "No" ++ c :: rest) = None)
  /\ (exists q,
        Re.compile (str "No. of pixels excluded\s+:\s+(\d+)") = Some q /\
        Re.search q (str "NoX of pixels excluded : 5")
        = Some (Re.mkM 0 (str "5")))
  /\ parse_stats_output (str "NoX of pixels excluded : 5") = Ok [].
Proof.
  intros Hd Hg Hc.
  assert (Hin : In (str "No. of pixels excluded", Count) fields)
    by (simpl; tauto).
  destruct (ReFacts.field_pattern _ Count Hin) as (pattern & Hpat & Hcp).
  split; [|split; [|split]].
  - destruct (ParseFacts.parse_get s d _ pattern Hpat Hd) as (r & Hr & E).
    rewrite Hg in E. subst r. unfold field_value in Hr.
    destruct (re_search pattern s) as [[m|]|e] eqn:Es; try discriminate Hr.
    apply (FieldFacts.matched_occurs _ Count pattern s m Hcp Es).
  - exists pattern, (field_nodes (str "No. of pixels excluded") (kind_set Count)).
    split; [exact Hpat|]. split; [exact Hcp|].
    rewrite ReFacts.match_here_field. unfold field_match.
    replace (starts_with (str "No. of pixels excluded") (str "No" ++ c :: rest))
      with false; [reflexivity|].
    cbn [str list_ascii_of_string app starts_with].
    rewrite !Ascii.eqb_refl. cbn [andb].
    replace (Ascii.eqb "." c) with false; [reflexivity|].
    symmetry. apply Ascii.eqb_neq. congruence.
  - eexists. split; vm_compute; reflexivity.
  - vm_compute. reflexivity.
Qed.

(** A report of three excluded pixels; the letter [X] for the period. *)
Lemma literal_period_witness :
  occurs (str "No. of pixels excluded") (str "No. of pixels excluded : 3") = true
  /\ (exists pattern p,
        In (str "No. of pixels excluded", pattern) patterns /\
        Re.compile pattern = Some p /\
        Re.match_here p (str "No" ++ "X" :: str " of pixels excluded : 3")
        = None)
  /\ (exists q,
        Re.compile (str "No. of pixels excluded\s+:\s+(\d+)") = Some q /\
        Re.search q (str "NoX of pixels excluded : 5")
        = Some (Re.mkM 0 (str "5")))
  /\ parse_stats_output (str "NoX of pixels excluded : 5") = Ok [].
Proof.
  apply (literal_period (str "No. of pixels excluded : 3")
           [(str "No. of pixels excluded", PyInt 3)] (PyInt 3) "X"
           (str " of pixels excluded : 3")).
  - vm_compute. reflexivity.
  - reflexivity.
  - discriminate.
Defined.

(** ** [calculate_mean_rms] *)

Section Extractor.
Variable float_repr : Q -> text.
Variable file_system : text -> text -> write_outcome.

Local Abbreviation write_record :=
  (fun '(stats_text, json_file) =>
     bindM (lift (parse_stats_output stats_text)) (fun stats_dict =>
     bindM (write_file file_system json_file
              (json_dump float_repr stats_dict 2))
           (fun _ => emit (Print (str "Saved stats to " ++ json_file))))).

Lemma calculate_mean_rms_unfold (full_output output_path : text)
    (t0 : list event) :
  calculate_mean_rms float_repr file_system full_output output_path t0 =
  if List.length (split full_output separator) <? 4
  then (Raise ValueError_blocks, t0 ++ [Print full_output])
  else for_each
         (combine (slice 1 4 (split full_output separator))
                  (stats_files output_path))
         write_record (t0 ++ [Print full_output]).
Proof.
  unfold calculate_mean_rms, bindM at 1, emit at 1.
  destruct (List.length (split full_output separator) <? 4); reflexivity.
Qed.

Lemma for_each_cons_ok (sec file : text) (d : dict)
    (l : list (text * text)) (t0 : list event) :
  parse_stats_output sec = Ok d ->
  file_system file (json_dump float_repr d 2) = Stored ->
  for_each ((sec, file) :: l) write_record t0 =
  for_each l write_record
    (t0 ++ [WriteFile file (json_dump float_repr d 2);
            Print (str "Saved stats to " ++ file)]).
Proof.
  intros H Hw. cbn [for_each]. unfold bindM, lift, write_file, emit.
  rewrite H, Hw. now rewrite <- app_assoc.
Qed.

Lemma for_each_cons_raise (sec file : text) (e : exn)
    (l : list (text * text)) (t0 : list event) :
  parse_stats_output sec = Raise e ->
  for_each ((sec, file) :: l) write_record t0 = (Raise e, t0).
Proof.
  intros H. cbn [for_each]. unfold bindM, lift. now rewrite H.
Qed.

Lemma for_each_cons_open_fails (sec file : text) (d : dict)
    (l : list (text * text)) (t0 : list event) :
  parse_stats_output sec = Ok d ->
  file_system file (json_dump float_repr d 2) = OpenFails ->
  for_each ((sec, file) :: l) write_record t0 = (Raise (OSError file), t0).
Proof.
  intros H Hw. cbn [for_each]. unfold bindM, lift, write_file, throw.
  now rewrite H, Hw.
Qed.

Lemma for_each_cons_write_fails (sec file : text) (d : dict) (kept : nat)
    (l : list (text * text)) (t0 : list event) :
  parse_stats_output sec = Ok d ->
  file_system file (json_dump float_repr d 2) = WriteFails kept ->
  for_each ((sec, file) :: l) write_record t0
  = (Raise (OSError file),
     t0 ++ [PartialFile file (firstn kept (json_dump float_repr d 2))]).
Proof.
  intros H Hw. cbn [for_each]. unfold bindM, lift, write_file, throw, emit.
  now rewrite H, Hw.
Qed.

(** When the three sections parse and the three files can be written,
    the three records are written in turn and the sections after the
    third are not looked at. *)
Lemma three_records_when_sections_parse
    (full_output output_path preamble s1 s2 s3 : text) (more : list text)
    (d1 d2 d3 : dict) (t0 : list event) :
  split full_output separator = preamble :: s1 :: s2 :: s3 :: more ->
  parse_stats_output s1 = Ok d1 ->
  parse_stats_output s2 = Ok d2 ->
  parse_stats_output s3 = Ok d3 ->
  file_system (path_join output_path (str "noisemap_stats.json"))
    (json_dump float_repr d1 2) = Stored ->
  file_system (path_join output_path (str "1kms_error_stats.json"))
    (json_dump float_repr d2 2) = Stored ->
  file_system (path_join output_path (str "1kms_noisemap_stats.json"))
    (json_dump float_repr d3 2) = Stored ->
  calculate_mean_rms float_repr file_system full_output output_path t0 =
  (Ok tt,
   t0 ++ [Print full_output;
          WriteFile (path_join output_path (str "noisemap_stats.json"))
                    (json_dump float_repr d1 2);
          Print (str "Saved stats to "
                 ++ path_join output_path (str "noisemap_stats.json"));
          WriteFile (path_join output_path (str "1kms_error_stats.json"))
                    (json_dump float_repr d2 2);
          Print (str "Saved stats to "
                 ++ path_join output_path (str "1kms_error_stats.json"));
          WriteFile (path_join output_path (str "1kms_noisemap_stats.json"))
                    (json_dump float_repr d3 2);
          Print (str "Saved stats to "
                 ++ path_join output_path (str "1kms_noisemap_stats.json"))]).
Proof.
  intros Hs H1 H2 H3 W1 W2 W3. rewrite calculate_mean_rms_unfold, Hs.
  cbn [List.length Nat.ltb Nat.leb slice Nat.sub skipn firstn
       stats_files combine].
  rewrite (for_each_cons_ok _ _ d1) by assumption.
  rewrite (for_each_cons_ok _ _ d2) by assumption.
  rewrite (for_each_cons_ok _ _ d3) by assumption.
  cbn [for_each]. unfold ret. now rewrite <- !app_assoc.
Qed.

(** Every record written is the dump of a parsed section, sent to the
    file paired with that section. *)
Lemma for_each_writes (l : list (text * text)) (t0 t : list event)
    (r : result unit) :
  for_each l write_record t0 = (r, t) ->
  exists evs,
    t = t0 ++ evs /\
    forall p c, In (p, c) (writes evs) ->
      exists sec d, In (sec, p) l /\ parse_stats_output sec = Ok d /\
                    c = json_dump float_repr d 2.
Proof.
  revert t0; induction l as [|[sec file] l IH]; intros t0 H.
  - cbn in H. injection H as _ <-. exists []. rewrite app_nil_r.
    split; [reflexivity | contradiction].
  - destruct (parse_stats_output sec) as [d|e] eqn:E.
    + destruct (file_system file (json_dump float_repr d 2)) as [| |kept]
        eqn:W.
      * rewrite (for_each_cons_ok _ _ d) in H by assumption.
        apply IH in H as (evs & -> & Hw).
        eexists. rewrite <- app_assoc. split; [reflexivity|].
        intros p c Hin. cbn [app writes flat_map] in Hin.
        destruct Hin as [Hin|Hin].
        -- injection Hin as <- <-. exists sec, d. repeat split; auto.
           now left.
        -- destruct (Hw p c Hin) as (sec' & d' & Hl & Hp & Hc).
           exists sec', d'. repeat split; auto. now right.
      * rewrite (for_each_cons_open_fails _ _ d) in H by assumption.
        injection H as _ <-. exists []. rewrite app_nil_r.
        split; [reflexivity | contradiction].
      * rewrite (for_each_cons_write_fails _ _ d kept) in H by assumption.
        injection H as _ <-. eexists. split; [reflexivity|].
        intros p c Hin. cbn in Hin. contradiction.
    + rewrite (for_each_cons_raise _ _ e) in H by exact E.
      injection H as _ <-. exists []. rewrite app_nil_r.
      split; [reflexivity | contradiction].
Qed.
End Extractor.

(** ** C5: too few sections *)



(** ** C4: the first three sections *)

(** C4 (failing inputs).  Four pieces do not guarantee three records:
    when a section holds a token its pattern matches and the conversion
    rejects, the call raises in the middle of the loop.  With the bad
    token in the first section nothing is written; with it in the second
    section the first record is written and the other two are not, and
    when the first file cannot be opened or written the call raises the
    [OSError] of line 118 before it reaches the second section.
    (When the three sections parse and the three files can be written,
    the three records are written in order and later sections are
    ignored: [three_records_when_sections_parse].) *)
Theorem bad_token_stops_the_records (float_repr : Q -> text)
    (file_system : text -> text -> write_outcome) :
  let good := str " Pixel mean : 2 " in
  let bad := str " Pixel sum : - " in
  let blob1 := str "log" ++ separator ++ bad ++ separator ++ good
               ++ separator ++ good in
  let blob2 := str "log" ++ separator ++ good ++ separator ++ bad
               ++ separator ++ good in
  let first_file := str "out/noisemap_stats.json" in
  let record := json_dump float_repr [(str "Pixel mean", PyInt 2)] 2 in
  List.length (split blob1 separator) = 4
  /\ calculate_mean_rms float_repr file_system blob1 (str "out") []
     = (Raise (ValueError_int (str "-")), [Print blob1])
  /\ List.length (split blob2 separator) = 4
  /\ calculate_mean_rms float_repr file_system blob2 (str "out") []
     = match file_system first_file record with
       | Stored =>
           (Raise (ValueError_int (str "-")),
            [Print blob2;
             WriteFile first_file record;
             Print (str "Saved stats to out/noisemap_stats.json")])
       | OpenFails => (Raise (OSError first_file), [Print blob2])
       | WriteFails kept =>
           (Raise (OSError first_file),
            [Print blob2; PartialFile first_file (firstn kept record)])
       end.
Proof.
  cbv zeta. split; [vm_compute; reflexivity|].
  split; [|split; [vm_compute; reflexivity|]].
  - rewrite calculate_mean_rms_unfold.
    match goal with
    | |- context [split ?b separator] =>
        let l := eval vm_compute in (split b separator) in
        change (split b separator) with l
    end.
    cbn [List.length Nat.ltb Nat.leb slice Nat.sub skipn firstn
         stats_files combine app].
    rewrite (for_each_cons_raise float_repr file_system _ _
               (ValueError_int (str "-")))
      by (vm_compute; reflexivity).
    reflexivity.
  - rewrite calculate_mean_rms_unfold.
    match goal with
    | |- context [split ?b separator] =>
        let l := eval vm_compute in (split b separator) in
        change (split b separator) with l
    end.
    cbn [List.length Nat.ltb Nat.leb slice Nat.sub skipn firstn
         stats_files combine app].
    destruct (file_system (str "out/noisemap_stats.json")
                (json_dump float_repr [(str "Pixel mean", PyInt 2)] 2))
      as [| |kept] eqn:W.
    + rewrite (for_each_cons_ok float_repr file_system _ _
                 [(str "Pixel mean", PyInt 2)])
        by first [exact W | vm_compute; reflexivity].
      rewrite (for_each_cons_raise float_repr file_system _ _
                 (ValueError_int (str "-")))
        by (vm_compute; reflexivity).
      reflexivity.
    + rewrite (for_each_cons_open_fails float_repr file_system _ _
                 [(str "Pixel mean", PyInt 2)])
        by first [exact W | vm_compute; reflexivity].
      reflexivity.
    + rewrite (for_each_cons_write_fails float_repr file_system _ _
                 [(str "Pixel mean", PyInt 2)] kept)
        by first [exact W | vm_compute; reflexivity].
      reflexivity.
Qed.

(** ** C9: the order of the keys and the layout of a record *)

Section Layout.
Variable float_repr : Q -> text.

Let entry (item : text * number) : text :=
  json_string (fst item) ++ str ": " ++ json_number float_repr (snd item).

Lemma dict_chunks_rest (sep : text) (d : dict) :
  List.concat (dict_chunks float_repr sep (str ": ") false d)
  = flat_map (fun item => sep ++ entry item) d.
Proof.
  induction d as [|[k v] d IH]; [reflexivity|].
  cbn [dict_chunks flat_map]. rewrite !concat_app, IH.
  unfold entry. cbn [List.concat fst snd].
  now rewrite !app_nil_r, <- !app_assoc.
Qed.

Lemma join_cons (sep x : text) (xs : list text) :
  join sep (x :: xs) = x ++ flat_map (fun y => sep ++ y) xs.
Proof.
  revert x; induction xs as [|y xs IH]; intros x.
  - cbn. now rewrite app_nil_r.
  - change (join sep (x :: y :: xs)) with (x ++ sep ++ join sep (y :: xs)).
    rewrite IH. cbn [flat_map]. now rewrite <- !app_assoc.
Qed.

(** A non-empty record: an opening brace, one line per binding in the
    order of the dictionary, each indented by two spaces and separated
    by a comma at the end of the line, and a closing brace. *)
Lemma json_dump_layout (d : dict) :
  d <> [] ->
  json_dump float_repr d 2
  = str "{" ++ "010" :: join (str "," ++ ["010"]) (record_lines float_repr d)
    ++ "010" :: str "}".
Proof.
  destruct d as [|[k v] d]; [intros N; now elim N|]. intros _.
  unfold json_dump, iterencode_dict.
  cbn [dict_chunks]. rewrite !concat_app, dict_chunks_rest.
  unfold record_lines. cbn [map]. rewrite join_cons.
  cbn [List.concat Nat.add Nat.mul spaces app str list_ascii_of_string].
  rewrite !app_nil_r. cbn [app]. do 4 f_equal. f_equal. f_equal.
  clear. induction d as [|[k' v'] d IH]; [reflexivity|].
  cbn [flat_map map]. rewrite IH. reflexivity.
Qed.
End Layout.

Lemma parse_keys (s : text) (d : dict) :
  parse_stats_output s = Ok d -> keys d = present s.
Proof.
  intros H. apply (parse_loop_keys s patterns [] d) in H; [exact H|].
  exact patterns_nodup.
Qed.

Lemma quoted_field_names (k : text) :
  In k field_names -> json_string k = "034" :: k ++ ["034"].
Proof.
  cbv [field_names patterns map fst In]. intros H.
  repeat (destruct H as [<-|H]; [vm_compute; reflexivity|]). contradiction.
Qed.

(** C9.  The keys of a returned mapping are the labels whose pattern
    matches, in the declaration order of [patterns]: a text that reports
    the mean before the sum still gives the sum first.  Every record
    [calculate_mean_rms] writes is the dump of the mapping parsed from
    one of the selected sections, whose keys are in that order; a
    non-empty dump is an opening brace, one line per binding in the
    order of the mapping, each indented by two spaces, and a closing
    brace; the field names are written between quotes unchanged. *)
Theorem key_order (float_repr : Q -> text)
    (file_system : text -> text -> write_outcome) (s : text) (d : dict)
    (full_output output_path : text) (t0 t : list event) (r : result unit) :
  parse_stats_output s = Ok d ->
  calculate_mean_rms float_repr file_system full_output output_path t0
  = (r, t) ->
  keys d = present s
  /\ parse_stats_output (str "Pixel mean : 2 Pixel sum : 1")
     = Ok [(str "Pixel sum", PyInt 1); (str "Pixel mean", PyInt 2)]
  /\ (exists evs,
        t = t0 ++ evs /\
        forall p c, In (p, c) (writes evs) ->
          exists sec d',
            In (sec, p) (combine (slice 1 4 (split full_output separator))
                                 (stats_files output_path)) /\
            parse_stats_output sec = Ok d' /\
            keys d' = present sec /\
            c = json_dump float_repr d' 2)
  /\ (forall d', d' <> [] ->
        json_dump float_repr d' 2
        = str "{" ++ "010"
          :: join (str "," ++ ["010"]) (record_lines float_repr d')
          ++ "010" :: str "}")
  /\ json_dump float_repr [] 2 = str "{}"
  /\ (forall k, In k field_names -> json_string k = "034" :: k ++ ["034"]).
Proof.
  intros Hd Hc.
  split; [now apply parse_keys|].
  split; [vm_compute; reflexivity|].
  split; [|split; [apply json_dump_layout|split;
                   [reflexivity | apply quoted_field_names]]].
  rewrite calculate_mean_rms_unfold in Hc.
  destruct (List.length (split full_output separator) <? 4).
  - injection Hc as _ <-. exists [Print full_output].
    split; [reflexivity | contradiction].
  - apply for_each_writes in Hc as (evs & -> & Hw).
    exists (Print full_output :: evs). rewrite <- app_assoc.
    split; [reflexivity|]. intros p c Hin.
    destruct (Hw p c Hin) as (sec & d' & Hl & Hp & E).
    exists sec, d'. repeat split; auto using parse_keys.
Qed.

(** The end-to-end scenario of the specification, with the mean and the
    sum swapped in a fourth text. *)
Lemma key_order_witness :
  let fr := fun _ : Q => str "<float>" in
  let blob := str "noise" ++ separator ++ str " Pixel sum : 10 "
              ++ separator ++ str " Pixel mean : 2 "
              ++ separator ++ str " Skewness : -3 " in
  let s := str "Pixel mean : 2 Pixel sum : 1" in
  keys [(str "Pixel sum", PyInt 1); (str "Pixel mean", PyInt 2)] = present s
  /\ parse_stats_output (str "Pixel mean : 2 Pixel sum : 1")
     = Ok [(str "Pixel sum", PyInt 1); (str "Pixel mean", PyInt 2)]
  /\ (exists evs,
        snd (calculate_mean_rms fr (fun _ _ => Stored) blob (str "out") [])
        = [] ++ evs /\
        forall p c, In (p, c) (writes evs) ->
          exists sec d',
            In (sec, p) (combine (slice 1 4 (split blob separator))
                                 (stats_files (str "out"))) /\
            parse_stats_output sec = Ok d' /\
            keys d' = present sec /\
            c = json_dump fr d' 2)
  /\ (forall d', d' <> [] ->
        json_dump fr d' 2
        = str "{" ++ "010"
          :: join (str "," ++ ["010"]) (record_lines fr d')
          ++ "010" :: str "}")
  /\ json_dump fr [] 2 = str "{}"
  /\ (forall k, In k field_names -> json_string k = "034" :: k ++ ["034"]).
Proof.
  cbv zeta.
  apply (key_order (fun _ : Q => str "<float>") (fun _ _ => Stored)
           (str "Pixel mean : 2 Pixel sum : 1")
           [(str "Pixel sum", PyInt 1); (str "Pixel mean", PyInt 2)]
           (str "noise" ++ separator ++ str " Pixel sum : 10 "
            ++ separator ++ str " Pixel mean : 2 "
            ++ separator ++ str " Skewness : -3 ")
           (str "out") []
           (snd (calculate_mean_rms (fun _ : Q => str "<float>")
              (fun _ _ => Stored)
              (str "noise" ++ separator ++ str " Pixel sum : 10 "
               ++ separator ++ str " Pixel mean : 2 "
               ++ separator ++ str " Skewness : -3 ") (str "out") []))
           (Ok tt)).
  - vm_compute. reflexivity.
  - vm_compute. reflexivity.
Defined.

(** ** C7: a function of its input only *)

Module HeapFacts.
Import Heap.

Lemma update_last (h : heap) (f : dict -> dict) (d : dict) :
  update (List.length h) f (h ++ [d]) = h ++ [f d].
Proof. induction h as [|x h IH]; simpl; [reflexivity | now rewrite IH]. Qed.

Lemma deref_last (h : heap) (d : dict) (rest : heap) :
  deref (List.length h) (h ++ d :: rest) = Some d.
Proof. unfold deref. induction h as [|x h IH]; simpl; auto. Qed.

Lemma parse_field_heap_value (s : text) (r : ref) (k p : text) (h : heap) :
  parse_field_heap s r (k, p) h =
  match field_value s p with
  | Ok (Some v) => (Ok tt, update r (dict_set k v) h)
  | Ok None => (Ok tt, h)
  | Raise e => (Raise e, h)
  end.
Proof.
  unfold parse_field_heap, field_value.
  destruct (re_search p s) as [[m|]|e]; cbn [bind]; try reflexivity.
  destruct (convert (strip (Re.m_group1 m))); reflexivity.
Qed.

(** The loop on the object at the end of the heap computes what the
    loop on a dictionary value computes, and touches nothing else. *)
Lemma parse_loop_heap_spec (s : text) (h : heap)
    (items : list (text * text)) (d0 : dict) :
  exists d1,
    parse_loop_heap s items (List.length h) (h ++ [d0])
    = (match parse_loop s items d0 with
       | Ok _ => Ok tt
       | Raise e => Raise e
       end, h ++ [d1])
    /\ forall d, parse_loop s items d0 = Ok d -> d1 = d.
Proof.
  revert d0; induction items as [|[k p] items IH]; intros d0.
  - exists d0. split; [reflexivity|]. cbn. congruence.
  - cbn [parse_loop_heap]. rewrite parse_field_heap_value, parse_loop_cons.
    destruct (field_value s p) as [[v|]|e]; cbn [bind].
    + rewrite update_last. apply IH.
    + apply IH.
    + exists d0. split; [reflexivity | discriminate].
Qed.

Lemma parse_stats_output_heap_spec (s : text) (h : heap) :
  exists d1,
    parse_stats_output_heap s h
    = (match parse_stats_output s with
       | Ok _ => Ok (List.length h)
       | Raise e => Raise e
       end, h ++ [d1])
    /\ forall d, parse_stats_output s = Ok d -> d1 = d.
Proof.
  unfold parse_stats_output_heap, alloc, parse_stats_output.
  destruct (parse_loop_heap_spec s h patterns []) as (d1 & E & Hd).
  exists d1. cbv beta iota. split; [|exact Hd].
  assert (G : forall x : result unit * heap,
    x = (match parse_loop s patterns [] with
         | Ok _ => Ok tt
         | Raise e => Raise e
         end, h ++ [d1]) ->
    (let (r, h') := x in
     match r with
     | Ok _ => (Ok (List.length h), h')
     | Raise e => (Raise e, h')
     end)
    = (match parse_loop s patterns [] with
       | Ok _ => Ok (List.length h)
       | Raise e => Raise e
       end, h ++ [d1])).
  { intros x ->. destruct (parse_loop s patterns []); reflexivity. }
  apply G, E.
Qed.

End HeapFacts.

(** C7.  Run on any heap, the function allocates one new dictionary and
    leaves every object that was there untouched; its outcome -- the
    mapping, or the exception -- is [parse_stats_output] of the text and
    nothing else.  Two runs in a row on the same text return two
    distinct objects holding equal mappings, the second run leaving the
    result of the first as it was. *)
Theorem parse_is_pure (s : text) (h : Heap.heap) :
  exists r1 h1 r2 h2,
    Heap.parse_stats_output_heap s h = (r1, h1) /\
    Heap.parse_stats_output_heap s h1 = (r2, h2) /\
    firstn (List.length h) h1 = h /\
    firstn (List.length h1) h2 = h1 /\
    match parse_stats_output s with
    | Ok d =>
        r1 = Ok (List.length h) /\ r2 = Ok (S (List.length h)) /\
        Heap.deref (List.length h) h1 = Some d /\
        Heap.deref (List.length h) h2 = Some d /\
        Heap.deref (S (List.length h)) h2 = Some d
    | Raise e => r1 = Raise e /\ r2 = Raise e
    end.
Proof.
  destruct (HeapFacts.parse_stats_output_heap_spec s h) as (d1 & E1 & H1).
  destruct (HeapFacts.parse_stats_output_heap_spec s (h ++ [d1]))
    as (d2 & E2 & H2).
  eexists _, _, _, _. split; [exact E1|]. split; [exact E2|].
  split; [|split].
  - rewrite firstn_app, Nat.sub_diag, firstn_all. cbn. apply app_nil_r.
  - rewrite firstn_app, Nat.sub_diag, firstn_all. cbn. apply app_nil_r.
  - destruct (parse_stats_output s) as [d|e]; [|split; reflexivity].
    rewrite (H1 d eq_refl), (H2 d eq_refl).
    split; [reflexivity|]. split.
    + f_equal. rewrite length_app. cbn. lia.
    + split; [apply HeapFacts.deref_last|]. split.
      * rewrite <- app_assoc. apply HeapFacts.deref_last.
      * replace (S (List.length h)) with (List.length (h ++ [d]))
          by (rewrite length_app; cbn; lia).
        apply HeapFacts.deref_last.
Qed.

(** * Further properties of the parser and of the extractor *)

(** ** The keys of a result *)

Lemma NoDup_map_filter {A B : Type} (f : A -> B) (g : A -> bool)
    (l : list A) :
  NoDup (map f l) -> NoDup (map f (filter g l)).
Proof.
  induction l as [|a l IH]; simpl; intros H; [constructor|].
  inversion H as [|? ? Na Hl]; subst. destruct (g a); simpl; auto.
  constructor; auto. intros Hin. apply Na.
  apply in_map_iff in Hin as (x & Ex & Hx). apply filter_In in Hx as [Hx _].
  rewrite <- Ex. now apply in_map.
Qed.

Lemma dict_get_in (d : dict) (k : text) (v : number) :
  NoDup (keys d) -> (In (k, v) d <-> dict_get k d = Some v).
Proof.
  induction d as [|[k' v'] d IH]; simpl; intros ND.
  - split; [contradiction | discriminate].
  - inversion ND as [|? ? Nk ND']; subst.
    destruct (text_eqb k k') eqn:E.
    + apply text_eqb_eq in E. subst k'. split.
      * intros [H|H]; [congruence|]. elim Nk.
        change k with (fst (k, v)). now apply in_map.
      * intros [= ->]. now left.
    + apply text_eqb_neq in E. rewrite <- (IH ND'). split.
      * intros [H|H]; [congruence | exact H].
      * now right.
Qed.

(** X1.  A mapping returned by [parse_stats_output] has pairwise
    distinct keys, all among the ten field names, hence at most ten
    bindings; looking a key up finds exactly the bindings it holds. *)
Theorem result_keys (s : text) (d : dict) :
  parse_stats_output s = Ok d ->
  NoDup (keys d) /\ incl (keys d) field_names /\ List.length d <= 10 /\
  forall k v, In (k, v) d <-> dict_get k d = Some v.
Proof.
  intros H. pose proof (parse_keys s d H) as Hk.
  assert (ND : NoDup (keys d)).
  { rewrite Hk. apply NoDup_map_filter, patterns_nodup. }
  assert (Hi : incl (keys d) field_names).
  { rewrite Hk. intros k Hin. apply in_map_iff in Hin as (x & <- & Hx).
    apply filter_In in Hx as [Hx _]. now apply in_map. }
  split; [exact ND|]. split; [exact Hi|]. split.
  - replace (List.length d) with (List.length (keys d))
      by (unfold keys; apply length_map).
    change 10 with (List.length field_names).
    now apply NoDup_incl_length.
  - intros k v. now apply dict_get_in.
Qed.

(** A report of a sum and of a count. *)
Lemma result_keys_witness :
  let d := [(str "Pixel sum", PyFloat (Finite (21 # 2)));
            (str "Total number of pixels", PyInt 64)] in
  NoDup (keys d) /\ incl (keys d) field_names /\ List.length d <= 10 /\
  forall k v, In (k, v) d <-> dict_get k d = Some v.
Proof.
  apply (result_keys
           (str "Total number of pixels : 64 Pixel sum : 10.5")).
  vm_compute. reflexivity.
Defined.

(** ** Where a binding comes from *)

Lemma search_from_minimal (label : text) (kd : kind) (j : nat) (s : text)
    (m : Re.rmatch) :
  Re.search_from (field_nodes label (kind_set kd)) j s = Some m ->
  forall i, i < Re.m_start m - j -> field_match label kd (skipn i s) = None.
Proof.
  revert j; induction s as [|c s IH]; intros j; simpl;
    rewrite ReFacts.match_here_field.
  - destruct (field_match label kd []) eqn:E; [|discriminate].
    intros [= <-] i Hi. simpl in Hi. lia.
  - destruct (field_match label kd (c :: s)) eqn:E.
    + intros [= <-] i Hi. simpl in Hi. lia.
    + intros H i Hi. destruct i as [|i]; [exact E|].
      simpl. apply (IH (S j) H). lia.
Qed.

(** A line shape at the head of a text is matched, possibly with a
    longer token. *)
Lemma field_match_shape (label : text) (kd : kind) (w1 w2 tok post : text) :
  blank w1 = true -> blank w2 = true -> token_of kd tok = true ->
  field_match label kd (label ++ w1 ++ ":" :: w2 ++ tok ++ post) <> None.
Proof.
  intros H1 H2 Ht.
  destruct (span (in_kind kd) post) as [a b] eqn:E.
  apply span_spec in E as (-> & Ha & Hb).
  rewrite (app_assoc tok a b).
  rewrite (ReFacts.field_match_complete label kd w1 w2 (tok ++ a) b);
    try assumption; try discriminate.
  - unfold token_of in *. destruct tok as [|c tok]; [discriminate|].
    change ((c :: tok) ++ a) with (c :: (tok ++ a)).
    change (c :: tok ++ a) with ((c :: tok) ++ a).
    now rewrite forallb_app, Ht, Ha.
  - now apply ReFacts.stops_spec.
Qed.

(** X2.  Every binding of a returned mapping comes from the leftmost
    place of the text that reads: the label, whitespace, a colon,
    whitespace, and a non-empty run of characters of the field's set.
    The token converted is the longest such run (what follows it is not
    in the set), the value bound is its conversion, and no place further
    left has that shape. *)
Theorem binding_origin (s : text) (d : dict) (key : text) (v : number) :
  parse_stats_output s = Ok d ->
  dict_get key d = Some v ->
  exists kd pre w1 w2 tok post,
    In (key, kd) fields /\
    s = pre ++ report_line key w1 w2 tok ++ post /\
    blank w1 = true /\ blank w2 = true /\
    token_of kd tok = true /\ stops kd post = true /\
    convert tok = Ok v /\
    forall pre' w1' w2' tok' post',
      s = pre' ++ report_line key w1' w2' tok' ++ post' ->
      blank w1' = true -> blank w2' = true -> token_of kd tok' = true ->
      List.length pre <= List.length pre'.
Proof.
  intros Hd Hg.
  destruct (in_dec (list_eq_dec ascii_dec) key field_names) as [Hk|Hk].
  2:{ rewrite (ParseFacts.parse_get_unknown s d key Hd Hk) in Hg.
      discriminate Hg. }
  apply in_map_iff in Hk as ([k pattern] & E & Hin). simpl in E. subst k.
  destruct (ReFacts.pattern_shape key pattern Hin) as (kd & Hf & Hc).
  destruct (ParseFacts.parse_get s d key pattern Hin Hd) as (r & Hr & E).
  rewrite Hg in E. subst r. unfold field_value in Hr.
  rewrite (FieldFacts.re_search_compiled key kd pattern Hc) in Hr.
  cbn [bind] in Hr.
  destruct (Re.search (field_nodes key (kind_set kd)) s) as [m|] eqn:Es;
    [|discriminate Hr].
  pose proof (search_from_minimal key kd 0 s m Es) as Hmin.
  apply ReFacts.search_from_sound in Es as (pre & rest & -> & Hs & Hm).
  apply ReFacts.field_match_sound in Hm
    as (w1 & w2 & post & -> & H1 & H2 & Ht & Hp).
  assert (Hstrip : strip (Re.m_group1 m) = Re.m_group1 m).
  { apply TokenFacts.strip_no_space, (TokenFacts.in_kind_no_space kd).
    unfold token_of in Ht. now destruct (Re.m_group1 m). }
  rewrite Hstrip in Hr.
  destruct (convert (Re.m_group1 m)) as [v'|e] eqn:Ev; [|discriminate Hr].
  cbn [bind] in Hr. injection Hr as ->.
  exists kd, pre, w1, w2, (Re.m_group1 m), post.
  split; [exact Hf|]. split.
  { unfold report_line. rewrite <- !app_assoc. cbn [app].
    now rewrite <- app_assoc. }
  do 5 (split; [assumption|]).
  intros pre' w1' w2' tok' post' E' B1 B2 T'.
  destruct (Nat.le_gt_cases (List.length pre) (List.length pre'))
    as [Hle|Hlt]; [exact Hle|]. exfalso.
  specialize (Hmin (List.length pre')).
  rewrite E' in Hmin at 1. rewrite skipn_app, skipn_all, Nat.sub_diag in Hmin.
  cbn [skipn app] in Hmin. unfold report_line in Hmin.
  rewrite <- !app_assoc in Hmin. cbn [app] in Hmin.
  rewrite <- app_assoc in Hmin.
  apply (field_match_shape key kd w1' w2' tok' post' B1 B2 T').
  apply Hmin. simpl in Hs. lia.
Qed.

(** The first label of the text has no colon after it; the second
    carries the value. *)
Lemma binding_origin_witness :
  let s := str "Skewness undefined; Skewness : -0.25 (Skewness : 7)" in
  exists kd pre w1 w2 tok post,
    In (str "Skewness", kd) fields /\
    s = pre ++ report_line (str "Skewness") w1 w2 tok ++ post /\
    blank w1 = true /\ blank w2 = true /\
    token_of kd tok = true /\ stops kd post = true /\
    convert tok = Ok (PyFloat (Finite (-1 # 4))) /\
    forall pre' w1' w2' tok' post',
      s = pre' ++ report_line (str "Skewness") w1' w2' tok' ++ post' ->
      blank w1' = true -> blank w2' = true -> token_of kd tok' = true ->
      List.length pre <= List.length pre'.
Proof.
  apply (binding_origin
           (str "Skewness undefined; Skewness : -0.25 (Skewness : 7)")
           [(str "Skewness", PyFloat (Finite (-1 # 4)))]).
  - vm_compute. reflexivity.
  - reflexivity.
Defined.

(** ** When the parser raises *)

Lemma field_value_search (s pattern : text) (r : result (option number)) :
  field_value s pattern = r <->
  match re_search pattern s with
  | Ok (Some m) =>
      match convert (strip (Re.m_group1 m)) with
      | Ok v => r = Ok (Some v)
      | Raise e => r = Raise e
      end
  | Ok None => r = Ok None
  | Raise e => r = Raise e
  end.
Proof.
  unfold field_value.
  destruct (re_search pattern s) as [[m|]|e]; cbn [bind];
    try (split; congruence).
  destruct (convert (strip (Re.m_group1 m))); cbn [bind]; split; congruence.
Qed.

(** The loop raises the exception of the first item whose field raises. *)
Lemma parse_loop_raise (s : text) (items : list (text * text)) (d : dict)
    (e : exn) :
  parse_loop s items d = Raise e <->
  exists l1 key pattern l2,
    items = l1 ++ (key, pattern) :: l2 /\
    (forall k p, In (k, p) l1 -> exists r, field_value s p = Ok r) /\
    field_value s pattern = Raise e.
Proof.
  revert d; induction items as [|[k p] items IH]; intros d.
  - split; [discriminate|].
    intros (l1 & key & pattern & l2 & E & _). now destruct l1.
  - rewrite parse_loop_cons.
    destruct (field_value s p) as [r|e'] eqn:Ev; cbn [bind].
    + rewrite IH. split.
      * intros (l1 & key & pattern & l2 & -> & Hl & Hr).
        exists ((k, p) :: l1), key, pattern, l2.
        split; [reflexivity|]. split; [|exact Hr].
        intros k' p' [[= <- <-]|Hin]; eauto.
      * intros (l1 & key & pattern & l2 & E & Hl & Hr).
        destruct l1 as [|x l1].
        -- injection E as <- <- <-. congruence.
        -- injection E as <- ->. exists l1, key, pattern, l2.
           split; [reflexivity|]. split; [|exact Hr].
           intros k' p' Hin. apply (Hl k' p'). now right.
    + split.
      * intros [= <-]. exists [], k, p, items.
        split; [reflexivity|]. split; [contradiction | exact Ev].
      * intros (l1 & key & pattern & l2 & E & Hl & Hr).
        destruct l1 as [|x l1].
        -- injection E as <- <- <-. congruence.
        -- injection E as <- ->.
           destruct (Hl k p (or_introl eq_refl)) as (r & Hr'). congruence.
Qed.

Lemma kind_unique (label : text) (k1 k2 : kind) :
  In (label, k1) fields -> In (label, k2) fields -> k1 = k2.
Proof.
  intros H1 H2.
  assert (H : forallb (fun f => forallb (fun g =>
                negb (text_eqb (fst f) (fst g))
                || match snd f, snd g with
                   | General, General | Count, Count => true
                   | _, _ => false
                   end) fields) fields = true) by (vm_compute; reflexivity).
  rewrite forallb_forall in H. specialize (H _ H1).
  rewrite forallb_forall in H. specialize (H _ H2).
  cbn [fst snd] in H. rewrite text_eqb_refl in H.
  now destruct k1, k2.
Qed.

(** X3.  [parse_stats_output] raises exactly when the token captured
    for some field is rejected by its conversion, and then with the
    exception of the first such field in declaration order: the fields
    before it converted or did not match, and the fields after it are
    not looked at.  The exception is the [ValueError] of [int], for a
    token without point and [e], or of [float].  One of the three
    counts raises on a run of more than 4300 digits and on nothing
    else. *)
Theorem raises_iff (s : text) (e : exn) :
  (parse_stats_output s = Raise e <->
   exists l1 key pattern l2 m,
     patterns = l1 ++ (key, pattern) :: l2 /\
     (forall k p m', In (k, p) l1 -> re_search p s = Ok (Some m') ->
        exists v, convert (strip (Re.m_group1 m')) = Ok v) /\
     re_search pattern s = Ok (Some m) /\
     convert (strip (Re.m_group1 m)) = Raise e)
  /\ (forall key pattern m,
        In (key, pattern) patterns ->
        re_search pattern s = Ok (Some m) ->
        convert (strip (Re.m_group1 m)) = Raise e ->
        let tok := Re.m_group1 m in
        ((e = ValueError_int tok /\ py_int tok = None /\
          contains "." tok || contains "e" (lower tok) = false)
         \/ (e = ValueError_float tok /\ py_float tok = None /\
             contains "." tok || contains "e" (lower tok) = true))
        /\ (In (key, Count) fields ->
            e = ValueError_int tok /\ forallb is_digit tok = true /\
            int_max_str_digits < List.length tok)).
Proof.
  split.
  - unfold parse_stats_output. rewrite parse_loop_raise. split.
    + intros (l1 & key & pattern & l2 & E & Hl & Hr).
      apply field_value_search in Hr.
      destruct (re_search pattern s) as [[m|]|e'] eqn:Es; try discriminate Hr.
      * destruct (convert (strip (Re.m_group1 m))) eqn:Ec;
          [discriminate Hr|]. injection Hr as <-.
        exists l1, key, pattern, l2, m. repeat split; auto.
        intros k p m' Hin Hs. destruct (Hl k p Hin) as (r & Hv).
        apply field_value_search in Hv. rewrite Hs in Hv.
        destruct (convert (strip (Re.m_group1 m'))); [eauto | discriminate].
      * exfalso.
        assert (Hin : In (key, pattern) patterns)
          by (rewrite E; apply in_elt).
        destruct (ReFacts.pattern_shape key pattern Hin) as (kd & _ & Hc).
        rewrite (FieldFacts.re_search_compiled key kd pattern Hc) in Es.
        discriminate Es.
    + intros (l1 & key & pattern & l2 & m & E & Hl & Hs & Hc).
      exists l1, key, pattern, l2. split; [exact E|]. split.
      * intros k p Hin.
        assert (Hp : In (k, p) patterns)
          by (rewrite E; apply in_or_app; now left).
        destruct (ReFacts.pattern_shape k p Hp) as (kd & _ & Hcp).
        destruct (field_value s p) as [r|e'] eqn:Ev; [eauto|]. exfalso.
        apply field_value_search in Ev.
        destruct (re_search p s) as [[m'|]|e''] eqn:Es'; try discriminate Ev.
        -- destruct (Hl k p m' Hin Es') as (v & Hv). rewrite Hv in Ev.
           discriminate Ev.
        -- rewrite (FieldFacts.re_search_compiled k kd p Hcp) in Es'.
           discriminate Es'.
      * apply field_value_search. now rewrite Hs, Hc.
  - intros key pattern m Hin Hs Hc.
    destruct (ReFacts.pattern_shape key pattern Hin) as (kd & Hf & Hcp).
    pose proof (FieldFacts.re_search_sound key kd pattern Hcp s m Hs)
      as (pre & rest & _ & _ & Hm).
    apply ReFacts.field_match_sound in Hm
      as (w1 & w2 & post & _ & _ & _ & Ht & _).
    assert (Hstrip : strip (Re.m_group1 m) = Re.m_group1 m).
    { apply TokenFacts.strip_no_space, (TokenFacts.in_kind_no_space kd).
      unfold token_of in Ht. now destruct (Re.m_group1 m). }
    assert (Hv : field_value s pattern = Raise e).
    { apply field_value_search. now rewrite Hs, Hc. }
    rewrite Hstrip in Hc. cbv zeta. split.
    + unfold convert in Hc.
      destruct (contains "." (Re.m_group1 m)
                || contains "e" (lower (Re.m_group1 m))).
      * right. destruct (py_float (Re.m_group1 m)); [discriminate Hc|].
        injection Hc as <-. auto.
      * left. destruct (py_int (Re.m_group1 m)); [discriminate Hc|].
        injection Hc as <-. auto.
    + intros Hk. pose proof (kind_unique key kd Count Hf Hk) as ->.
      destruct (FieldFacts.field_value_count key Count pattern Hcp s eq_refl)
        as [Hn|(tok & Hd & _ & Ht')]; [congruence|].
      rewrite Hv in Ht'.
      destruct (List.length tok <=? int_max_str_digits) eqn:El;
        [discriminate Ht'|].
      apply Nat.leb_gt in El. injection Ht' as ->.
      assert (tok = Re.m_group1 m) as <-.
      { unfold convert in Hc.
        destruct (contains "." (Re.m_group1 m)
                  || contains "e" (lower (Re.m_group1 m)));
          [destruct (py_float (Re.m_group1 m))
          |destruct (py_int (Re.m_group1 m))]; congruence. }
      auto.
Qed.

(** The sum converts, the mean is a lone minus sign, and the skewness,
    which [float] would reject as well, is never reached. *)
Lemma raises_iff_witness :
  let s := str "Pixel sum : 1 Pixel mean : - Skewness : 1.2.3" in
  exists l1 key pattern l2 m,
    patterns = l1 ++ (key, pattern) :: l2 /\
    (forall k p m', In (k, p) l1 -> re_search p s = Ok (Some m') ->
       exists v, convert (strip (Re.m_group1 m')) = Ok v) /\
    re_search pattern s = Ok (Some m) /\
    convert (strip (Re.m_group1 m)) = Raise (ValueError_int (str "-")).
Proof.
  apply (proj1 (proj1 (raises_iff
           (str "Pixel sum : 1 Pixel mean : - Skewness : 1.2.3")
           (ValueError_int (str "-"))))).
  vm_compute. reflexivity.
Defined.

(** ** Labels do not hide in one another *)

Lemma mismatch_starts (k a x : text) :
  mismatch k a = true -> starts_with k (a ++ x) = false.
Proof.
  revert a; induction k as [|c k IH]; intros [|y a]; simpl;
    try discriminate.
  intros H. destruct (Ascii.eqb c y); simpl in *; [now apply IH | reflexivity].
Qed.

(** Past a stretch in which [k] cannot start, the search for [k] goes on
    in what follows. *)
Lemma clash_find (k a x : text) (i : nat) :
  clash k a = true ->
  find_from k i (a ++ x) = find_from k (i + List.length a) x.
Proof.
  revert i; induction a as [|c a IH]; intros i H.
  - simpl. now rewrite Nat.add_0_r.
  - cbn [clash] in H. apply andb_true_iff in H as [Hm Hc].
    cbn [app find_from]. change (c :: a ++ x) with ((c :: a) ++ x).
    rewrite (mismatch_starts k (c :: a) x Hm), (IH (S i) Hc).
    f_equal. simpl. lia.
Qed.

Lemma not_head_find (k x y : text) (i : nat) :
  forallb (not_head k) x = true ->
  find_from k i (x ++ y) = find_from k (i + List.length x) y.
Proof.
  revert i; induction x as [|c x IH]; intros i H.
  - simpl. now rewrite Nat.add_0_r.
  - cbn [forallb] in H. apply andb_true_iff in H as [Hc Hx].
    cbn [app find_from].
    replace (starts_with k (c :: x ++ y)) with false.
    + rewrite (IH (S i) Hx). f_equal. simpl. lia.
    + destruct k as [|a k]; [discriminate Hc|]. simpl.
      unfold not_head in Hc. apply negb_true_iff in Hc. now rewrite Hc.
Qed.

Lemma find_from_nil (k : text) (i : nat) : k <> [] -> find_from k i [] = None.
Proof. destruct k; [intros N; now elim N | reflexivity]. Qed.

(** No field name starts inside another one, or inside itself past its
    first character. *)
Lemma names_clash :
  forallb (fun k =>
    forallb (fun l => if text_eqb k l then clash k (tl l) else clash k l)
            field_names) field_names = true.
Proof. vm_compute. reflexivity. Qed.

(** No field name starts with whitespace, a colon or a character of the
    set [[-\d\.eE\+]]. *)
Lemma value_char_not_head (k : text) (c : ascii) :
  In k field_names -> value_char c = true -> not_head k c = true.
Proof.
  intros Hk Hc.
  assert (H : forallb (fun k => match k with
                                | x :: _ => negb (value_char x)
                                | [] => false
                                end) field_names = true)
    by (vm_compute; reflexivity).
  rewrite forallb_forall in H. specialize (H k Hk).
  destruct k as [|x k]; [discriminate H|]. unfold not_head.
  apply negb_true_iff. apply negb_true_iff in H.
  destruct (Ascii.eqb x c) eqn:E; [|reflexivity].
  apply Ascii.eqb_eq in E. congruence.
Qed.

Lemma field_names_fields (label : text) (kd : kind) :
  In (label, kd) fields -> In label field_names.
Proof.
  intros H. destruct (ReFacts.field_pattern label kd H) as (p & Hp & _).
  change label with (fst (label, p)). now apply in_map.
Qed.

(** The text after the label of a report line. *)
Lemma line_value_chars (kd : kind) (t : token) (w1 w2 post : text) :
  accepted kd t = true -> blank w1 = true -> blank w2 = true ->
  forallb is_space post = true ->
  forallb value_char (w1 ++ ":" :: w2 ++ token_text t ++ post) = true.
Proof.
  intros Ha H1 H2 Hp.
  apply ReFacts.blank_spec in H1 as [_ H1].
  apply ReFacts.blank_spec in H2 as [_ H2].
  assert (Hs : forall w, forallb is_space w = true ->
                         forallb value_char w = true).
  { intros w Hw. rewrite forallb_forall in *. intros c Hc.
    unfold value_char. now rewrite (Hw c Hc). }
  assert (Ht : forallb value_char (token_text t) = true).
  { apply TokenFacts.accepted_parts in Ha as (Hw & _ & _).
    pose proof (TokenFacts.token_text_in_kind t Hw) as Hk.
    rewrite forallb_forall in *. intros c Hc. unfold value_char.
    rewrite (Hk c Hc). now rewrite orb_true_r. }
  rewrite forallb_app. cbn [forallb]. rewrite !forallb_app.
  rewrite (Hs w1 H1), (Hs w2 H2), Ht, (Hs post Hp). reflexivity.
Qed.

(** X4.  A report line on its own -- a field's label, whitespace, a
    colon, whitespace, a numeric token the field accepts (an integer of
    at most 4300 digits, the limit of [int]), and at most whitespace
    after it -- parses to exactly one binding: the field's
    key with the number the token denotes.  No other field reads
    anything into the line. *)
Theorem single_line (label : text) (kd : kind) (t : token)
    (w1 w2 post : text) :
  In (label, kd) fields ->
  accepted kd t = true ->
  blank w1 = true -> blank w2 = true ->
  forallb is_space post = true ->
  parse_stats_output (report_line label w1 w2 (token_text t) ++ post)
  = Ok [(label, token_number t)].
Proof.
  intros Hin Ha H1 H2 Hp.
  destruct (ReFacts.field_pattern label kd Hin) as (pattern & Hpat & Hc).
  set (s := report_line label w1 w2 (token_text t) ++ post).
  assert (Es : s = label ++ w1 ++ ":" :: w2 ++ token_text t ++ post).
  { unfold s, report_line. rewrite <- !app_assoc. cbn [app].
    now rewrite <- app_assoc. }
  apply (ParseFacts.parse_single s label pattern); [exact Hpat| |].
  - assert (Hf : find label ([] ++ s) = Some (List.length (@nil ascii))).
    { rewrite Es. unfold find. cbn [app List.length].
      apply find_from_head, starts_with_app. }
    assert (Hst : stops kd post = true).
    { destruct post as [|c post]; [reflexivity|]. simpl in *.
      apply andb_true_iff in Hp as [Hc' _].
      now rewrite (ReFacts.space_not_in_kind kd c Hc'). }
    exact (FieldFacts.field_value_token label kd pattern Hc t [] w1 w2 post
             Ha H1 H2 Hst Hf).
  - unfold only_label. apply forallb_forall. intros k Hk.
    destruct (text_eqb k label) eqn:E; [reflexivity|]. cbn [orb].
    apply negb_true_iff. unfold occurs, find. rewrite Es.
    pose proof names_clash as Hn. rewrite forallb_forall in Hn.
    specialize (Hn k Hk). rewrite forallb_forall in Hn.
    specialize (Hn label (field_names_fields label kd Hin)).
    rewrite E in Hn. rewrite (clash_find k label _ 0 Hn).
    rewrite <- (app_nil_r (w1 ++ ":" :: w2 ++ token_text t ++ post)).
    rewrite not_head_find.
    + rewrite find_from_nil; [reflexivity|].
      intros ->. revert Hk. clear. cbv [field_names patterns map fst In].
      intros H. repeat (destruct H as [H|H]; [discriminate H|]). exact H.
    + pose proof (line_value_chars kd t w1 w2 post Ha H1 H2 Hp) as Hv.
      rewrite forallb_forall in *. intros c Hc'.
      apply value_char_not_head; auto.
Qed.

(** The last line of a report, with its line break. *)
Lemma single_line_witness :
  parse_stats_output
    (str "No. of pixels excluded :  17" ++ ["013"; "010"])
  = Ok [(str "No. of pixels excluded", PyInt 17)].
Proof.
  apply (single_line (str "No. of pixels excluded") Count
           (mkToken false (str "17") None None)
           (str " ") (str "  ") ["013"; "010"]).
  - simpl. tauto.
  - reflexivity.
  - reflexivity.
  - reflexivity.
  - reflexivity.
Defined.

(** ** Whitespace is required on both sides of the colon *)

Lemma find_from_none_shift (k : text) (i j : nat) (s : text) :
  find_from k i s = None -> find_from k j s = None.
Proof.
  revert i j; induction s as [|c s IH]; intros i j; simpl.
  - now destruct (starts_with k []).
  - destruct (starts_with k (c :: s)); [discriminate | apply IH].
Qed.

Lemma search_skip_head (label : text) (kd : kind) (j : nat) (c : ascii)
    (s : text) :
  field_match label kd (c :: s) = None ->
  Re.search_from (field_nodes label (kind_set kd)) j (c :: s)
  = Re.search_from (field_nodes label (kind_set kd)) (S j) s.
Proof. intros H. simpl. now rewrite ReFacts.match_here_field, H. Qed.

(** Once the pattern fails where the label starts, and the label starts
    nowhere else, the search finds nothing. *)
Lemma search_after_head (label : text) (kd : kind) (x rest : text) :
  clash label (tl label) = true ->
  forallb (not_head label) x = true ->
  find_from label 0 rest = None ->
  field_match label kd (label ++ x ++ rest) = None ->
  Re.search (field_nodes label (kind_set kd)) (label ++ x ++ rest) = None.
Proof.
  intros Hn Hx Hr Hm. unfold Re.search.
  destruct label as [|c0 l'].
  - destruct x as [|c x]; [|discriminate Hx]. cbn [app] in *.
    apply (ReFacts.search_from_absent [] kd 0 0). exact Hr.
  - cbn [app tl] in *. rewrite (search_skip_head (c0 :: l') kd 0 c0 _ Hm).
    apply (ReFacts.search_from_absent (c0 :: l') kd 1 1).
    rewrite (clash_find (c0 :: l') l' _ 1 Hn), not_head_find by exact Hx.
    apply (find_from_none_shift (c0 :: l') 0 _ rest Hr).
Qed.

(** X5.  A colon that touches the label, or a value that touches the
    colon, is not a report line: when whitespace is missing on at least
    one side of the colon and the label does not occur again further on,
    the field's iteration leaves the dictionary as it is and the key is
    absent from every mapping returned. *)
Theorem colon_needs_whitespace (label : text) (kd : kind)
    (w1 w2 rest : text) :
  In (label, kd) fields ->
  forallb is_space w1 = true -> forallb is_space w2 = true ->
  blank w1 && blank w2 = false ->
  match rest with c :: _ => is_space c = false | [] => True end ->
  occurs label rest = false ->
  let s := label ++ w1 ++ ":" :: w2 ++ rest in
  exists pattern,
    In (label, pattern) patterns /\
    re_search pattern s = Ok None /\
    (forall d0, parse_field s d0 (label, pattern) = Ok d0) /\
    (forall d, parse_stats_output s = Ok d -> dict_get label d = None).
Proof.
  intros Hin S1 S2 Hb Hr Ho s.
  destruct (ReFacts.field_pattern label kd Hin) as (pattern & Hpat & Hc).
  assert (Hm : field_match label kd s = None).
  { unfold s, field_match. rewrite starts_with_app, skipn_length_app.
    rewrite (span_app is_space w1 (":" :: w2 ++ rest) S1 eq_refl).
    destruct w1 as [|x w1]; [reflexivity|]. rewrite Ascii.eqb_refl.
    rewrite (span_app is_space w2 rest S2 Hr).
    destruct w2 as [|y w2]; [reflexivity|]. simpl in Hb, S1, S2.
    rewrite S1, S2 in Hb. discriminate Hb. }
  assert (Hs : re_search pattern s = Ok None).
  { rewrite (FieldFacts.re_search_compiled label kd pattern Hc). f_equal.
    pose proof (field_names_fields label kd Hin) as Hk.
    pose proof names_clash as Hn. rewrite forallb_forall in Hn.
    specialize (Hn label Hk). rewrite forallb_forall in Hn.
    specialize (Hn label Hk). rewrite text_eqb_refl in Hn.
    unfold s in *.
    change (w1 ++ ":" :: w2 ++ rest) with (w1 ++ [":"] ++ w2 ++ rest) in *.
    rewrite (app_assoc w1), (app_assoc (w1 ++ [":"])) in *.
    apply search_after_head; auto.
    - rewrite !forallb_app. cbn [forallb].
      assert (Hsp : forall w, forallb is_space w = true ->
                              forallb (not_head label) w = true).
      { intros w Hw. rewrite forallb_forall in *. intros c Hc'.
        apply value_char_not_head; [exact Hk|]. unfold value_char.
        now rewrite (Hw c Hc'). }
      rewrite (Hsp w1 S1), (Hsp w2 S2).
      now rewrite (value_char_not_head label ":" Hk eq_refl).
    - unfold occurs, find in Ho.
      now destruct (find_from label 0 rest). }
  exists pattern. split; [exact Hpat|]. split; [exact Hs|].
  assert (Hv : field_value s pattern = Ok None)
    by (apply field_value_search; now rewrite Hs).
  split.
  - intros d0. now rewrite parse_field_value, Hv.
  - intros d Hd.
    destruct (ParseFacts.parse_get s d label pattern Hpat Hd) as (r & Hr' & ->).
    congruence.
Qed.

(** [Pixel sum: 5], with the colon against the label. *)
Lemma colon_needs_whitespace_witness :
  let s := str "Pixel sum: 5" in
  exists pattern,
    In (str "Pixel sum", pattern) patterns /\
    re_search pattern s = Ok None /\
    (forall d0, parse_field s d0 (str "Pixel sum", pattern) = Ok d0) /\
    (forall d, parse_stats_output s = Ok d ->
               dict_get (str "Pixel sum") d = None).
Proof.
  apply (colon_needs_whitespace (str "Pixel sum") General
           [] (str " ") (str "5")).
  - simpl. tauto.
  - reflexivity.
  - reflexivity.
  - reflexivity.
  - reflexivity.
  - reflexivity.
Defined.

(** ** Which captured tokens convert *)

Lemma set_char (c : ascii) :
  in_kind General c = true ->
  is_space c = false /\ Ascii.eqb c "_" = false /\
  Ascii.eqb (lower_char c) "i" = false /\
  Ascii.eqb (lower_char c) "n" = false /\
  (is_dp_char c = true -> is_digit c = true).
Proof.
  destruct c as [[] [] [] [] [] [] [] []]; intros H; try discriminate H;
    repeat split; try reflexivity; intros H'; try discriminate H';
    reflexivity.
Qed.

Lemma set_not_special (s : text) :
  forallb (in_kind General) s = true ->
  text_eqb (lower s) (str "inf") = false /\
  text_eqb (lower s) (str "infinity") = false /\
  text_eqb (lower s) (str "nan") = false.
Proof.
  destruct s as [|c s]; [repeat split; reflexivity|]. cbn [forallb].
  intros H. apply andb_true_iff in H as [Hc _].
  apply set_char in Hc as (_ & _ & Hi & Hn & _).
  unfold lower, str. cbn [map list_ascii_of_string text_eqb].
  now rewrite Hi, Hn.
Qed.

Lemma digitpart_from_set (b : bool) (s ds : text) :
  forallb (in_kind General) s = true ->
  digitpart_from b s = Some ds ->
  ds = s /\ forallb is_digit s = true /\ (s <> [] \/ b = true).
Proof.
  revert b ds; induction s as [|c s IH]; intros b ds Hs H.
  - simpl in H. destruct b; [|discriminate H]. injection H as <-. auto.
  - cbn [forallb] in Hs. apply andb_true_iff in Hs as [Hc Hs].
    cbn [digitpart_from] in H. destruct (is_digit c) eqn:Hd.
    + destruct (digitpart_from true s) as [ds'|] eqn:E; [|discriminate H].
      injection H as <-. destruct (IH true ds' Hs E) as (-> & Hds & _).
      cbn [forallb]. rewrite Hd, Hds. repeat split; auto. left. discriminate.
    + apply set_char in Hc as (_ & Hu & _). rewrite Hu in H. discriminate H.
Qed.

Lemma opt_digitpart_set (s ds : text) :
  forallb (in_kind General) s = true ->
  opt_digitpart s = Some ds -> ds = s /\ forallb is_digit s = true.
Proof.
  destruct s as [|c s]; [intros _ [= <-]; auto|]. intros Hs H.
  destruct (digitpart_from_set false (c :: s) ds Hs H) as (-> & Hd & _). auto.
Qed.

Lemma split_sign_inv (s bd : text) (neg : bool) :
  split_sign s = (neg, bd) ->
  (neg = true /\ s = "-" :: bd) \/ (neg = false /\ s = "+" :: bd)
  \/ (neg = false /\ s = bd).
Proof.
  destruct s as [|c s]; simpl.
  - intros [= <- <-]. auto.
  - destruct (Ascii.eqb c "-") eqn:E1.
    + apply Ascii.eqb_eq in E1. subst c. intros [= <- <-]. auto.
    + destruct (Ascii.eqb c "+") eqn:E2.
      * apply Ascii.eqb_eq in E2. subst c. intros [= <- <-]. auto.
      * intros [= <- <-]. auto.
Qed.

Lemma forallb_tail {A : Type} (f : A -> bool) (a : A) (l : list A) :
  forallb f (a :: l) = true -> forallb f l = true.
Proof. simpl. intros H. now apply andb_true_iff in H. Qed.

(** The text of a token whose sign is what [split_sign] took off. *)
Lemma signed_text (tok bd : text) (neg : bool) (t : token) :
  split_sign tok = (neg, bd) -> t_minus t = neg -> body t = bd ->
  tok = token_text t \/ (t_minus t = false /\ tok = "+" :: token_text t).
Proof.
  intros Hs Hm Hb. rewrite TokenFacts.token_text_body, Hm, Hb.
  destruct (split_sign_inv tok bd neg Hs) as [[-> ->]|[[-> ->]|[-> ->]]];
    cbn [sign_text app]; auto.
Qed.

(** An exponent that reads back: its mark, sign and digits. *)
Lemma exponent_inv (r : text) (e : Z) :
  forallb (in_kind General) r = true ->
  exponent r = Some e ->
  r = [] \/ exists ex, wf_expo ex = true /\ r = expo_text ex.
Proof.
  destruct r as [|c r]; [auto|]. intros Hs H. right.
  unfold exponent in H.
  destruct (Ascii.eqb c "e" || Ascii.eqb c "E") eqn:Hm; [|discriminate H].
  destruct (split_sign r) as [neg bd] eqn:Ess.
  destruct (digitpart bd) as [ds|] eqn:Ed; [|discriminate H].
  apply forallb_tail in Hs.
  assert (Hbd : forallb (in_kind General) bd = true).
  { destruct (split_sign_inv r bd neg Ess) as [[_ ->]|[[_ ->]|[_ ->]]];
      try exact Hs; now apply forallb_tail in Hs. }
  destruct (digitpart_from_set false bd ds Hbd Ed) as (-> & Hd & [N|N]);
    [|discriminate N].
  destruct (split_sign_inv r bd neg Ess) as [[_ ->]|[[_ ->]|[_ ->]]].
  - exists (mkExpo c ["-"] bd). split; [|reflexivity].
    unfold wf_expo; cbn [e_mark e_sign e_digits]. rewrite Hm, Hd.
    apply text_eqb_neq in N. now rewrite N.
  - exists (mkExpo c ["+"] bd). split; [|reflexivity].
    unfold wf_expo; cbn [e_mark e_sign e_digits]. rewrite Hm, Hd.
    apply text_eqb_neq in N. now rewrite N.
  - exists (mkExpo c [] bd). split; [|reflexivity].
    unfold wf_expo; cbn [e_mark e_sign e_digits]. rewrite Hm, Hd.
    apply text_eqb_neq in N. now rewrite N.
Qed.

Lemma wf_intro (neg : bool) (ip : text) (fr : option text)
    (ex : option expo) :
  forallb is_digit ip = true ->
  forallb is_digit (match fr with Some f => f | None => [] end) = true ->
  ip ++ match fr with Some f => f | None => [] end <> [] ->
  match ex with Some e => wf_expo e = true | None => True end ->
  wf (mkToken neg ip fr ex) = true.
Proof.
  intros H1 H2 H3 H4. apply text_eqb_neq in H3.
  unfold wf, frac_digits.
  destruct fr as [x|], ex as [e|]; cbn [t_int t_frac t_exp] in *;
    rewrite H1, H2, H3, ?H4; reflexivity.
Qed.

Lemma py_float_inv (tok : text) (f : pyfloat) :
  forallb (in_kind General) tok = true ->
  py_float tok = Some f ->
  exists t, wf t = true /\
    (tok = token_text t \/ (t_minus t = false /\ tok = "+" :: token_text t)).
Proof.
  intros Hs H. unfold py_float in H.
  rewrite (TokenFacts.strip_no_space tok
             (TokenFacts.in_kind_no_space General tok Hs)) in H.
  destruct (split_sign tok) as [neg bd] eqn:Ess.
  assert (Hbd : forallb (in_kind General) bd = true).
  { destruct (split_sign_inv tok bd neg Ess) as [[_ ->]|[[_ ->]|[_ ->]]];
      try exact Hs; now apply forallb_tail in Hs. }
  destruct (set_not_special bd Hbd) as (N1 & N2 & N3).
  rewrite N1, N2, N3 in H. cbn [orb] in H.
  destruct (span is_dp_char bd) as [ip r1] eqn:E1.
  apply span_spec in E1 as (Ebd & Hip & _).
  rewrite Ebd, forallb_app in Hbd. apply andb_true_iff in Hbd as [Sip Sr1].
  assert (Dip : forallb is_digit ip = true).
  { rewrite forallb_forall in *. intros c Hc.
    now apply (set_char c (Sip c Hc)), Hip. }
  assert (G : forall fr fp r2,
    fp = match fr with Some x => x | None => [] end ->
    forallb (in_kind General) fp = true ->
    forallb (in_kind General) r2 = true ->
    r1 = match fr with Some x => "." :: x | None => [] end ++ r2 ->
    match opt_digitpart ip, opt_digitpart fp, exponent r2 with
    | Some id, Some fd, Some e =>
        match id ++ fd with
        | [] => None
        | m => Some (Finite (decimal_Q (signed neg (decimal_value m))
                                       (e - Z.of_nat (List.length fd))))
        end
    | _, _, _ => None
    end = Some f ->
    exists t, t_minus t = neg /\ body t = bd /\ wf t = true).
  { intros fr fp r2 Efp Sfp Sr2 Er1 Hm.
    destruct (opt_digitpart ip) as [id|] eqn:Ei; [|discriminate Hm].
    destruct (opt_digitpart fp) as [fd|] eqn:Ef; [|discriminate Hm].
    destruct (exponent r2) as [e|] eqn:Ee; [|discriminate Hm].
    destruct (opt_digitpart_set ip id Sip Ei) as (-> & _).
    destruct (opt_digitpart_set fp fd Sfp Ef) as (-> & Dfp).
    destruct (ip ++ fp) as [|a l] eqn:En; [discriminate Hm|].
    subst fp.
    destruct (exponent_inv r2 e Sr2 Ee) as [->|(ex & Hex & ->)].
    - exists (mkToken neg ip fr None). split; [reflexivity|]. split.
      + unfold body. cbn [t_int t_frac t_exp]. now rewrite Ebd, Er1.
      + apply wf_intro; auto.
        intros X. pose proof (eq_trans (eq_sym En) X) as Y. discriminate Y.
    - exists (mkToken neg ip fr (Some ex)). split; [reflexivity|]. split.
      + unfold body. cbn [t_int t_frac t_exp]. now rewrite Ebd, Er1.
      + apply wf_intro; auto.
        intros X. pose proof (eq_trans (eq_sym En) X) as Y. discriminate Y. }
  assert (X : exists t, t_minus t = neg /\ body t = bd /\ wf t = true).
  { destruct r1 as [|c r].
    - apply (G None [] []); auto.
    - destruct (Ascii.eqb c ".") eqn:Ec.
      + apply Ascii.eqb_eq in Ec. subst c.
        destruct (span is_dp_char r) as [fp r2] eqn:E2.
        apply span_spec in E2 as (-> & _ & _).
        apply forallb_tail in Sr1. rewrite forallb_app in Sr1.
        apply andb_true_iff in Sr1 as [Sfp Sr2].
        apply (G (Some fp) fp r2); auto.
      + apply (G None [] (c :: r)); auto. }
  destruct X as (t & Hm & Hb & Hw). exists t. split; [exact Hw|].
  now apply (signed_text tok bd neg t).
Qed.

Lemma py_int_inv (tok : text) (z : Z) :
  forallb (in_kind General) tok = true ->
  py_int tok = Some z ->
  exists t, wf t = true /\
    (tok = token_text t \/ (t_minus t = false /\ tok = "+" :: token_text t)).
Proof.
  intros Hs H. unfold py_int in H.
  rewrite (TokenFacts.strip_no_space tok
             (TokenFacts.in_kind_no_space General tok Hs)) in H.
  destruct (split_sign tok) as [neg bd] eqn:Ess.
  assert (Hbd : forallb (in_kind General) bd = true).
  { destruct (split_sign_inv tok bd neg Ess) as [[_ ->]|[[_ ->]|[_ ->]]];
      try exact Hs; now apply forallb_tail in Hs. }
  destruct (digitpart bd) as [ds|] eqn:Ed; [|discriminate H].
  destruct (digitpart_from_set false bd ds Hbd Ed) as (-> & Hd & [N|N]);
    [|discriminate N].
  exists (mkToken neg bd None None). split.
  - apply wf_intro; auto. now rewrite app_nil_r.
  - apply (signed_text tok bd neg); auto.
    unfold body. cbn [t_int t_frac t_exp]. now rewrite !app_nil_r.
Qed.

(** Lines 80-83 on a well-formed token: the number it denotes, or the
    [ValueError] of [int] when it is an integer of more than 4300
    digits. *)
Lemma convert_token_total (t : token) :
  wf t = true ->
  convert (token_text t)
  = if within_limit t then Ok (token_number t)
    else Raise (ValueError_int (token_text t)).
Proof.
  intros H. destruct (within_limit t) eqn:Hl;
    [now apply TokenFacts.convert_token|].
  unfold within_limit in Hl.
  destruct (t_frac t) eqn:Ef; [discriminate Hl|].
  destruct (t_exp t) eqn:Ee; [discriminate Hl|].
  pose proof (TokenFacts.wf_parts t H) as (Hi & _ & Hn & _).
  unfold frac_digits in Hn. rewrite Ef, app_nil_r in Hn.
  assert (Hp : py_int (token_text t) = None).
  { unfold py_int.
    rewrite (TokenFacts.strip_token t H), (TokenFacts.split_sign_token t H).
    unfold body. rewrite Ef, Ee. cbn [app]. rewrite app_nil_r.
    now rewrite (TokenFacts.digitpart_digits _ Hi Hn), Hl. }
  unfold convert. rewrite Hp.
  replace (contains "." (token_text t) || contains "e" (lower (token_text t)))
    with false; [reflexivity|].
  unfold token_text. rewrite Ef, Ee, !app_nil_r,
    TokenFacts.lower_app, !TokenFacts.contains_app.
  destruct (TokenFacts.digits_no_point _ Hi) as [-> ->].
  destruct (t_minus t); reflexivity.
Qed.

Lemma convert_plus (t : token) :
  wf t = true -> t_minus t = false ->
  convert ("+" :: token_text t)
  = if within_limit t then Ok (token_number t)
    else Raise (ValueError_int ("+" :: token_text t)).
Proof.
  intros Hw Hm.
  assert (Hs : strip ("+" :: token_text t) = "+" :: token_text t).
  { apply TokenFacts.strip_no_space. unfold no_space. cbn [forallb].
    pose proof (TokenFacts.in_kind_no_space General _
                  (TokenFacts.token_text_in_kind t Hw)) as Hn.
    unfold no_space in Hn. now rewrite Hn. }
  assert (Hsp : split_sign (strip ("+" :: token_text t))
                = split_sign (strip (token_text t))).
  { rewrite Hs, (TokenFacts.strip_token t Hw),
      (TokenFacts.split_sign_token t Hw), Hm.
    rewrite TokenFacts.token_text_body, Hm. reflexivity. }
  assert (E1 : py_int ("+" :: token_text t) = py_int (token_text t))
    by (unfold py_int; now rewrite Hsp).
  assert (E2 : py_float ("+" :: token_text t) = py_float (token_text t))
    by (unfold py_float; now rewrite Hsp).
  assert (Ec : contains "." ("+" :: token_text t)
               || contains "e" (lower ("+" :: token_text t))
               = contains "." (token_text t)
                 || contains "e" (lower (token_text t))) by reflexivity.
  pose proof (convert_token_total t Hw) as Hc.
  unfold convert in *. rewrite Ec, E1, E2.
  destruct (contains "." (token_text t)
            || contains "e" (lower (token_text t)));
    [destruct (py_float (token_text t)) | destruct (py_int (token_text t))];
    destruct (within_limit t); congruence.
Qed.

(** X6.  Of the tokens the seven statistics can capture -- non-empty
    runs over the set [[-\d\.eE\+]] -- the conversion of lines 80-83
    accepts exactly the numeric tokens of the specification and those
    tokens with a plus sign in front, an integer among them having at
    most 4300 digits: an optional sign, digits with at most one point
    among or beside them, and an optional exponent of [e] or [E], an
    optional sign and digits.  Every other run over the set makes it
    raise, a longer integer with the [ValueError] of [int].  What the
    conversion returns is the number the token denotes. *)
Theorem convert_succeeds_iff (tok : text) :
  forallb (in_kind General) tok = true ->
  ((exists v, convert tok = Ok v) <->
   exists t, wf t = true /\ within_limit t = true /\
     (tok = token_text t \/ (t_minus t = false /\ tok = "+" :: token_text t)))
  /\ (forall t, wf t = true ->
        convert (token_text t)
        = (if within_limit t then Ok (token_number t)
           else Raise (ValueError_int (token_text t))) /\
        (t_minus t = false ->
         convert ("+" :: token_text t)
         = if within_limit t then Ok (token_number t)
           else Raise (ValueError_int ("+" :: token_text t)))).
Proof.
  intros Hs. split; [split|].
  - intros (v & Hv).
    assert (X : exists t, wf t = true /\
              (tok = token_text t
               \/ (t_minus t = false /\ tok = "+" :: token_text t))).
    { unfold convert in Hv.
      destruct (contains "." tok || contains "e" (lower tok)).
      + destruct (py_float tok) as [f|] eqn:E; [|discriminate Hv].
        exact (py_float_inv tok f Hs E).
      + destruct (py_int tok) as [z|] eqn:E; [|discriminate Hv].
        exact (py_int_inv tok z Hs E). }
    destruct X as (t & Hw & Ht). exists t. split; [exact Hw|].
    split; [|exact Ht].
    destruct Ht as [-> | [Hm ->]].
    + rewrite (convert_token_total t Hw) in Hv.
      destruct (within_limit t); [reflexivity | discriminate Hv].
    + rewrite (convert_plus t Hw Hm) in Hv.
      destruct (within_limit t); [reflexivity | discriminate Hv].
  - intros (t & Hw & Hl & [-> | [Hm ->]]); exists (token_number t).
    + now apply TokenFacts.convert_token.
    + rewrite (convert_plus t Hw Hm). now rewrite Hl.
  - intros t Hw. split; [now apply convert_token_total|].
    intros Hm. now apply convert_plus.
Qed.

(** [+2.5e-1] converts; it is [2.5e-1] with a plus sign. *)
Lemma convert_succeeds_iff_witness :
  ((exists v, convert (str "+2.5e-1") = Ok v) <->
   exists t, wf t = true /\ within_limit t = true /\
     (str "+2.5e-1" = token_text t
      \/ (t_minus t = false /\ str "+2.5e-1" = "+" :: token_text t)))
  /\ (forall t, wf t = true ->
        convert (token_text t)
        = (if within_limit t then Ok (token_number t)
           else Raise (ValueError_int (token_text t))) /\
        (t_minus t = false ->
         convert ("+" :: token_text t)
         = if within_limit t then Ok (token_number t)
           else Raise (ValueError_int ("+" :: token_text t)))).
Proof.
  apply (convert_succeeds_iff (str "+2.5e-1")). reflexivity.
Defined.

(** ** Splitting on the marker *)

Lemma split_from_skip (sep u cur rest : text) :
  split_from sep (List.length u) cur (u ++ rest) = split_from sep 0 cur rest.
Proof.
  induction u as [|a u IH]; [reflexivity|]. cbn [List.length app split_from].
  exact IH.
Qed.

Lemma split_from_cons (sep : text) (k : nat) (cur s : text) :
  exists x l, split_from sep k cur s = x :: l.
Proof.
  revert k cur; induction s as [|c s IH]; intros k cur; simpl; [eauto|].
  destruct k as [|k]; [|apply IH].
  destruct (starts_with sep (c :: s)); [eauto | apply IH].
Qed.

Lemma join_two (sep x : text) (l : list text) :
  l <> [] -> join sep (x :: l) = x ++ sep ++ join sep l.
Proof. destruct l; [intros N; now elim N | reflexivity]. Qed.

(** A text that starts with a non-empty [sep]: its first character, the
    rest of [sep], and what follows. *)
Lemma starts_with_cons (sep : text) (c : ascii) (s : text) :
  sep <> [] -> starts_with sep (c :: s) = true ->
  exists rest, s = tl sep ++ rest /\ c :: s = sep ++ rest /\
               List.length sep - 1 = List.length (tl sep).
Proof.
  intros N H. apply starts_with_split in H.
  destruct sep as [|a sep]; [now elim N|]. cbn [app List.length skipn] in H.
  injection H as -> H. exists (skipn (List.length sep) s).
  cbn [tl app List.length]. rewrite <- H. repeat split. lia.
Qed.

Lemma join_split_from (sep : text) (n : nat) :
  sep <> [] ->
  forall s cur, List.length s <= n ->
    join sep (split_from sep 0 cur s) = rev cur ++ s.
Proof.
  intros N. induction n as [|n IH]; intros s cur Hn.
  - destruct s; [|simpl in Hn; lia]. simpl. now rewrite app_nil_r.
  - destruct s as [|c s]; [simpl; now rewrite app_nil_r|].
    cbn [split_from List.length] in *.
    destruct (starts_with sep (c :: s)) eqn:E.
    + destruct (starts_with_cons sep c s N E) as (rest & Es & Ec & El).
      rewrite El, Es, split_from_skip.
      destruct (split_from_cons sep 0 [] rest) as (x & l & Ex).
      rewrite join_two by (rewrite Ex; discriminate).
      rewrite (IH rest []).
      * cbn [rev app]. rewrite <- Es, Ec. reflexivity.
      * rewrite Es, length_app in Hn. lia.
    + rewrite (IH s (c :: cur)) by lia. cbn [rev].
      now rewrite <- app_assoc.
Qed.

Lemma split_from_absent (sep : text) (i : nat) (s cur : text) :
  find_from sep i s = None -> split_from sep 0 cur s = [rev cur ++ s].
Proof.
  revert i cur; induction s as [|c s IH]; intros i cur; simpl.
  - intros _. now rewrite app_nil_r.
  - destruct (starts_with sep (c :: s)); [discriminate|].
    intros H. rewrite (IH (S i) (c :: cur) H). cbn [rev].
    now rewrite <- app_assoc.
Qed.

(** X7.  Splitting loses nothing: joining the pieces of
    [s.split(sep)] with [sep] gives [s] back.  There is always at least
    one piece, and a text in which [sep] does not occur is its own
    single piece. *)
Theorem split_join (s sep : text) :
  sep <> [] ->
  join sep (split s sep) = s
  /\ split s sep <> []
  /\ (occurs sep s = false -> split s sep = [s]).
Proof.
  intros N. unfold split. split; [|split].
  - now apply (join_split_from sep (List.length s) N s []).
  - destruct (split_from_cons sep 0 [] s) as (x & l & ->). discriminate.
  - unfold occurs, find. destruct (find_from sep 0 s) eqn:E; [discriminate|].
    intros _. now rewrite (split_from_absent sep 0 s [] E).
Qed.

(** Two reports after a line of log. *)
Lemma split_join_witness :
  let s := str "log" ++ separator ++ str " a" ++ separator ++ str " b" in
  join separator (split s separator) = s
  /\ split s separator <> []
  /\ (occurs separator s = false -> split s separator = [s]).
Proof.
  apply (split_join
           (str "log" ++ separator ++ str " a" ++ separator ++ str " b")
           separator).
  discriminate.
Defined.




(** ** More on [calculate_mean_rms] *)


(** ** Integers of a parsed mapping are within the limit *)

Lemma digitpart_from_is_digit (b : bool) (s ds : text) :
  digitpart_from b s = Some ds -> forallb is_digit ds = true.
Proof.
  revert b ds; induction s as [|c s IH]; intros b ds H.
  - simpl in H. destruct b; [|discriminate H]. now injection H as <-.
  - cbn [digitpart_from] in H. destruct (is_digit c) eqn:Hd.
    + destruct (digitpart_from true s) as [ds'|] eqn:E; [|discriminate H].
      injection H as <-. cbn [forallb]. rewrite Hd. exact (IH true ds' E).
    + destruct (Ascii.eqb c "_" && b); [|discriminate H].
      exact (IH false ds H).
Qed.

Lemma decimal_value_bound (ds : text) :
  forallb is_digit ds = true ->
  (0 <= decimal_value ds < 10 ^ Z.of_nat (List.length ds))%Z.
Proof.
  unfold decimal_value.
  assert (G : forall acc, (0 <= acc)%Z -> forallb is_digit ds = true ->
    (0 <= fold_left (fun a c => a * 10 + digit_val c) ds acc
     < (acc + 1) * 10 ^ Z.of_nat (List.length ds))%Z).
  { induction ds as [|c ds IH]; intros acc Ha H.
    - simpl. lia.
    - cbn [forallb] in H. apply andb_true_iff in H as [Hc H].
      assert (Hv : (0 <= digit_val c <= 9)%Z).
      { unfold is_digit in Hc. unfold digit_val.
        apply andb_true_iff in Hc as [Hlo Hhi].
        apply Nat.leb_le in Hlo, Hhi. lia. }
      cbn [fold_left List.length]. rewrite Nat2Z.inj_succ, Z.pow_succ_r by lia.
      specialize (IH (acc * 10 + digit_val c)%Z ltac:(lia) H).
      pose proof (Z.pow_pos_nonneg 10 (Z.of_nat (List.length ds))
                    ltac:(lia) ltac:(lia)) as Hp.
      set (P := (10 ^ Z.of_nat (List.length ds))%Z) in *.
      assert (Hm : ((acc * 10 + digit_val c + 1) * P
                    <= (acc + 1) * (10 * P))%Z).
      { replace ((acc + 1) * (10 * P))%Z with ((acc * 10 + 10) * P)%Z
          by ring.
        apply Z.mul_le_mono_nonneg_r; lia. }
      lia. }
  intros H. specialize (G 0%Z ltac:(lia) H). lia.
Qed.

(** What [int] returns prints in at most 4300 digits, so that writing
    it -- [json.dump] goes through [int.__repr__], which has the same
    limit -- cannot raise. *)
Lemma py_int_bound (tok : text) (z : Z) :
  py_int tok = Some z ->
  (Z.abs z < 10 ^ Z.of_nat int_max_str_digits)%Z.
Proof.
  unfold py_int. destruct (split_sign (strip tok)) as [neg bd].
  destruct (digitpart bd) as [ds|] eqn:Ed; [|discriminate].
  destruct (List.length ds <=? int_max_str_digits) eqn:El; [|discriminate].
  intros [= <-]. apply Nat.leb_le in El.
  pose proof (decimal_value_bound ds (digitpart_from_is_digit _ _ _ Ed))
    as [H0 H1].
  assert (Hp : (10 ^ Z.of_nat (List.length ds)
                <= 10 ^ Z.of_nat int_max_str_digits)%Z)
    by (apply Z.pow_le_mono_r; lia).
  unfold signed. destruct neg; lia.
Qed.

Lemma parsed_int_bound (s : text) (d : dict) (key : text) (z : Z) :
  parse_stats_output s = Ok d ->
  dict_get key d = Some (PyInt z) ->
  (Z.abs z < 10 ^ Z.of_nat int_max_str_digits)%Z.
Proof.
  intros Hd Hg.
  destruct (in_dec (list_eq_dec ascii_dec) key field_names) as [Hk|Hk].
  2:{ rewrite (ParseFacts.parse_get_unknown s d key Hd Hk) in Hg.
      discriminate Hg. }
  apply in_map_iff in Hk as ([k pattern] & E & Hin). simpl in E. subst k.
  destruct (ParseFacts.parse_get s d key pattern Hin Hd) as (r & Hr & E).
  rewrite Hg in E. subst r. apply field_value_search in Hr.
  destruct (re_search pattern s) as [[m|]|e]; try discriminate Hr.
  destruct (convert (strip (Re.m_group1 m))) as [v|e] eqn:Ec;
    [|discriminate Hr].
  injection Hr as <-. unfold convert in Ec.
  destruct (contains "." (strip (Re.m_group1 m))
            || contains "e" (lower (strip (Re.m_group1 m)))).
  - destruct (py_float (strip (Re.m_group1 m))); discriminate Ec.
  - destruct (py_int (strip (Re.m_group1 m))) as [z'|] eqn:Ep;
      [|discriminate Ec].
    injection Ec as ->. exact (py_int_bound _ _ Ep).
Qed.

Lemma stats_files_prefix (output_path : text) :
  exists prefix,
    (prefix = output_path \/ prefix = output_path ++ str "/") /\
    stats_files output_path
    = [ prefix ++ str "noisemap_stats.json";
        prefix ++ str "1kms_error_stats.json";
        prefix ++ str "1kms_noisemap_stats.json" ].
Proof.
  unfold stats_files, path_join.
  replace (starts_with (str "/") (str "noisemap_stats.json")) with false
    by reflexivity.
  replace (starts_with (str "/") (str "1kms_error_stats.json")) with false
    by reflexivity.
  replace (starts_with (str "/") (str "1kms_noisemap_stats.json")) with false
    by reflexivity.
  destruct (text_eqb output_path [] || ends_with (str "/") output_path).
  - exists output_path. auto.
  - exists (output_path ++ str "/"). split; [auto|].
    now rewrite <- !app_assoc.
Qed.

(** X9.  The three records go to three different files, each named by
    putting the record's file name behind one common prefix: the output
    path itself when it is empty or ends with a slash, the output path
    and a slash otherwise.  No record of a call overwrites another. *)
Theorem stats_files_distinct (output_path : text) :
  NoDup (stats_files output_path)
  /\ exists prefix,
       (prefix = output_path \/ prefix = output_path ++ str "/") /\
       (prefix = output_path <->
        output_path = [] \/ ends_with (str "/") output_path = true) /\
       stats_files output_path
       = [ prefix ++ str "noisemap_stats.json";
           prefix ++ str "1kms_error_stats.json";
           prefix ++ str "1kms_noisemap_stats.json" ].
Proof.
  split.
  - destruct (stats_files_prefix output_path) as (prefix & _ & ->).
    repeat constructor; simpl; intros H;
      repeat (destruct H as [H|H]; [apply app_inv_head in H; discriminate H|]);
      exact H.
  - unfold stats_files, path_join.
    replace (starts_with (str "/") (str "noisemap_stats.json")) with false
      by reflexivity.
    replace (starts_with (str "/") (str "1kms_error_stats.json")) with false
      by reflexivity.
    replace (starts_with (str "/") (str "1kms_noisemap_stats.json")) with false
      by reflexivity.
    destruct (text_eqb output_path []) eqn:E1;
      [|destruct (ends_with (str "/") output_path) eqn:E2]; cbn [orb].
    + exists output_path. split; [auto|]. split; [|reflexivity].
      apply text_eqb_eq in E1. tauto.
    + exists output_path. split; [auto|]. split; [tauto | reflexivity].
    + exists (output_path ++ str "/"). split; [auto|]. split.
      * apply text_eqb_neq in E1. split.
        -- intros H. exfalso.
           apply (f_equal (@List.length ascii)) in H.
           rewrite length_app in H. simpl in H. lia.
        -- intros [H|H]; [contradiction | discriminate H].
      * now rewrite <- !app_assoc.
Qed.

Section ExtractorMore.
Variable float_repr : Q -> text.
Variable file_system : text -> text -> write_outcome.

Local Abbreviation write_record :=
  (fun '(stats_text, json_file) =>
     bindM (lift (parse_stats_output stats_text)) (fun stats_dict =>
     bindM (write_file file_system json_file
              (json_dump float_repr stats_dict 2))
           (fun _ => emit (Print (str "Saved stats to " ++ json_file))))).

Lemma writes_record_events (l : list (text * text)) :
  writes (flat_map record_events l) = l.
Proof.
  induction l as [|[p c] l IH]; [reflexivity|].
  cbn [flat_map record_events app fst snd writes]. cbn [flat_map app] .
  f_equal. exact IH.
Qed.

End ExtractorMore.




(** The directory of the records is missing: the three sections parse
    and the first file cannot be opened. *)
Lemma records_written_missing_dir :
  let blob := str "log" ++ separator ++ str " Pixel sum : 1 "
              ++ separator ++ str " Pixel mean : 2 "
              ++ separator ++ str " Skewness : 3 " in
  calculate_mean_rms (fun _ => []) (fun _ _ => OpenFails) blob
    (str "missing_dir") []
  = (Raise (OSError (str "missing_dir/noisemap_stats.json")), [Print blob]).
Proof. vm_compute. reflexivity. Qed.



(** ** A report of several lines *)

Module ReportFacts.
Import Report.

Lemma dict_set_new (k : text) (v : number) (d : dict) :
  ~ In k (keys d) -> dict_set k v d = d ++ [(k, v)].
Proof.
  induction d as [|[k' v'] d IH]; simpl; intros N; [reflexivity|].
  destruct (text_eqb k k') eqn:E.
  - apply text_eqb_eq in E. subst. tauto.
  - rewrite IH by tauto. reflexivity.
Qed.

(** The loop when the outcome of every field is known. *)
Lemma parse_loop_all (s : text) (val : text -> option number)
    (items : list (text * text)) (d : dict) :
  NoDup (keys d ++ map fst items) ->
  (forall k p, In (k, p) items -> field_value s p = Ok (val k)) ->
  parse_loop s items d
  = Ok (d ++ flat_map (fun item => match val (fst item) with
                                   | Some v => [(fst item, v)]
                                   | None => []
                                   end) items).
Proof.
  revert d; induction items as [|[k p] items IH]; intros d ND Hv.
  - simpl. now rewrite app_nil_r.
  - rewrite parse_loop_cons, (Hv k p) by now left. cbn [bind flat_map fst].
    cbn [map fst] in ND.
    assert (Nk : ~ In k (keys d)).
    { intros Hk. apply NoDup_remove_2 in ND. apply ND.
      apply in_or_app. now left. }
    destruct (val k) as [v|].
    + rewrite IH.
      * rewrite (dict_set_new k v d Nk), <- app_assoc. reflexivity.
      * rewrite (dict_set_new k v d Nk). unfold keys. rewrite map_app.
        cbn [map fst]. rewrite <- app_assoc. exact ND.
      * intros k' p' Hin. apply Hv. now right.
    + rewrite IH; auto.
      * now apply NoDup_remove_1 in ND.
      * intros k' p' Hin. apply Hv. now right.
Qed.

Lemma line_ok_spec (ln : line) :
  line_ok ln = true ->
  In (l_label ln, l_kind ln) fields /\
  accepted (l_kind ln) (l_token ln) = true /\
  blank (l_w1 ln) = true /\ blank (l_w2 ln) = true /\
  blank (l_end ln) = true.
Proof.
  unfold line_ok. rewrite !andb_true_iff.
  intros [[[[Hf Ha] H1] H2] He]. repeat split; auto.
  apply existsb_exists in Hf as ([lab kd] & Hin & Hx).
  cbn [fst snd] in Hx. apply andb_true_iff in Hx as [El Ek].
  apply text_eqb_eq in El. subst lab.
  destruct kd, (l_kind ln); try discriminate Ek; exact Hin.
Qed.

Lemma blank_spaces (w : text) : blank w = true -> forallb is_space w = true.
Proof. intros H. now apply ReFacts.blank_spec in H. Qed.

Lemma line_text_split (ln : line) :
  line_text ln
  = l_label ln
    ++ (l_w1 ln ++ ":" :: l_w2 ln ++ token_text (l_token ln) ++ l_end ln).
Proof.
  unfold line_text, report_line. rewrite <- !app_assoc. cbn [app].
  now rewrite <- app_assoc.
Qed.

(** Another field's label starts nowhere in a line. *)
Lemma find_past_line (name : text) (ln : line) (rest : text) (i : nat) :
  In name field_names -> line_ok ln = true -> name <> l_label ln ->
  find_from name i (line_text ln ++ rest)
  = find_from name (i + List.length (line_text ln)) rest.
Proof.
  intros Hn Hok Hne.
  destruct (line_ok_spec ln Hok) as (Hin & Ha & H1 & H2 & He).
  pose proof names_clash as Hc. rewrite forallb_forall in Hc.
  specialize (Hc name Hn). rewrite forallb_forall in Hc.
  specialize (Hc _ (field_names_fields _ _ Hin)).
  apply text_eqb_neq in Hne. rewrite Hne in Hc.
  rewrite line_text_split.
  set (x := l_w1 ln ++ ":" :: l_w2 ln ++ token_text (l_token ln) ++ l_end ln).
  rewrite <- app_assoc.
  rewrite (clash_find name (l_label ln) _ i Hc), not_head_find.
  - f_equal. rewrite length_app. lia.
  - pose proof (line_value_chars (l_kind ln) (l_token ln) (l_w1 ln) (l_w2 ln)
                  (l_end ln) Ha H1 H2 (blank_spaces _ He)) as Hv.
    rewrite forallb_forall in *. intros c Hc'.
    apply value_char_not_head; auto.
Qed.
Lemma report_text_cons (ln : line) (lines : list line) :
  report_text (ln :: lines) = line_text ln ++ report_text lines.
Proof. reflexivity. Qed.

Lemma name_nonempty (name : text) : In name field_names -> name <> [].
Proof.
  intros H ->. revert H. cbv [field_names patterns map fst In].
  intros H. repeat (destruct H as [H|H]; [discriminate H|]). exact H.
Qed.

(** A field none of whose lines is in the report does not occur in it. *)
Lemma absent_from_report (name : text) (lines : list line) (i : nat) :
  In name field_names -> forallb line_ok lines = true ->
  lookup name lines = None ->
  find_from name i (report_text lines) = None.
Proof.
  intros Hn. revert i; induction lines as [|ln lines IH]; intros i Hok Hl.
  - apply find_from_nil. now apply name_nonempty.
  - cbn [forallb] in Hok. apply andb_true_iff in Hok as [Hln Hok].
    cbn [lookup] in Hl.
    destruct (text_eqb name (l_label ln)) eqn:E; [discriminate Hl|].
    apply text_eqb_neq in E.
    rewrite report_text_cons, (find_past_line name ln _ i Hn Hln E).
    now apply IH.
Qed.

(** The first line of a field is where its label first occurs. *)
Lemma first_line (name : text) (lines : list line) (ln : line) (i : nat) :
  In name field_names -> forallb line_ok lines = true ->
  lookup name lines = Some ln ->
  exists before after,
    l_label ln = name /\ line_ok ln = true /\
    forallb line_ok after = true /\
    report_text lines
    = report_text before ++ line_text ln ++ report_text after /\
    find_from name i (report_text lines)
    = Some (i + List.length (report_text before)).
Proof.
  intros Hn. revert i; induction lines as [|l0 lines IH]; intros i Hok Hl.
  - discriminate Hl.
  - cbn [forallb] in Hok. apply andb_true_iff in Hok as [Hl0 Hok].
    cbn [lookup] in Hl. destruct (text_eqb name (l_label l0)) eqn:E.
    + injection Hl as ->. apply text_eqb_eq in E.
      exists [], lines. split; [now symmetry|]. split; [exact Hl0|].
      split; [exact Hok|]. split; [reflexivity|].
      rewrite report_text_cons, line_text_split, <- E, <- app_assoc.
      cbn [report_text map List.concat List.length].
      rewrite Nat.add_0_r. apply find_from_head, starts_with_app.
    + apply text_eqb_neq in E.
      destruct (IH (i + List.length (line_text l0)) Hok Hl)
        as (before & after & El & Hln & Ha & Er & Ef).
      exists (l0 :: before), after. split; [exact El|]. split; [exact Hln|].
      split; [exact Ha|]. split.
      * rewrite !report_text_cons, Er, <- app_assoc. reflexivity.
      * rewrite report_text_cons, (find_past_line name l0 _ i Hn Hl0 E), Ef.
        f_equal. rewrite report_text_cons, length_app. lia.
Qed.

(** The outcome of a field on a report. *)
Lemma field_value_report (name pattern : text) (lines : list line) :
  In (name, pattern) patterns -> forallb line_ok lines = true ->
  field_value (report_text lines) pattern
  = Ok match lookup name lines with
       | Some ln => Some (token_number (l_token ln))
       | None => None
       end.
Proof.
  intros Hin Hok.
  assert (Hn : In name field_names)
    by (change name with (fst (name, pattern)); now apply in_map).
  destruct (ReFacts.pattern_shape name pattern Hin) as (kd & Hf & Hc).
  destruct (lookup name lines) as [ln|] eqn:El.
  - destruct (first_line name lines ln 0 Hn Hok El)
      as (before & after & Elab & Hln & Ha & Er & Ef).
    destruct (line_ok_spec ln Hln) as (Hfl & Hacc & H1 & H2 & He).
    rewrite Elab in Hfl. rewrite (kind_unique name _ _ Hfl Hf) in *.
    assert (Et : report_text lines
                 = report_text before
                   ++ report_line name (l_w1 ln) (l_w2 ln)
                        (token_text (l_token ln))
                   ++ (l_end ln ++ report_text after)).
    { rewrite Er. unfold line_text. rewrite Elab, <- !app_assoc.
      reflexivity. }
    rewrite Et.
    apply (FieldFacts.field_value_token name kd pattern Hc); auto.
    + destruct (l_end ln) as [|c e]; [discriminate He|]. cbn [app stops].
      simpl in He. apply andb_true_iff in He as [Hs _].
      now rewrite (ReFacts.space_not_in_kind kd c Hs).
    + rewrite <- Et. exact Ef.
  - apply (FieldFacts.field_value_absent name kd pattern Hc).
    unfold occurs, find.
    now rewrite (absent_from_report name lines 0 Hn Hok El).
Qed.
End ReportFacts.

(** X12.  A report made of lines -- each a field's label, whitespace, a
    colon, whitespace, a numeric token the field accepts (an integer of
    at most 4300 digits, the limit of [int]), and whitespace that ends
    the line -- in any order and for any selection of the
    fields, parses without exception to the bindings of all its lines,
    listed in the declaration order of the fields.  When a label comes
    on two lines, the first one counts. *)
Theorem report_parses (lines : list Report.line) :
  forallb Report.line_ok lines = true ->
  parse_stats_output (Report.report_text lines) = Ok (Report.bindings lines).
Proof.
  intros Hok. unfold parse_stats_output.
  rewrite (ReportFacts.parse_loop_all (Report.report_text lines)
             (fun name => match Report.lookup name lines with
                          | Some ln =>
                              Some (token_number (Report.l_token ln))
                          | None => None
                          end) patterns []).
  - cbn [app]. f_equal. unfold Report.bindings, field_names.
    rewrite !flat_map_concat_map, map_map. f_equal. apply map_ext.
    intros [name p]. cbn [fst].
    now destruct (Report.lookup name lines).
  - exact patterns_nodup.
  - intros k p Hin. now apply ReportFacts.field_value_report.
Qed.

(** The count before the mean, the sum last, and a second line for the
    mean that is not used. *)
Lemma report_parses_witness :
  let nl := ["010"] in
  let lines :=
    [ Report.mkLine (str "Total number of pixels") Count (str " ") (str " ")
        (mkToken false (str "64") None None) nl;
      Report.mkLine (str "Pixel mean") General (str "  ") (str " ")
        (mkToken true (str "0") (Some (str "5")) None) nl;
      Report.mkLine (str "Pixel sum") General (str " ") (str "  ")
        (mkToken false (str "3") None (Some (mkExpo "e" [] (str "2")))) nl;
      Report.mkLine (str "Pixel mean") General (str " ") (str " ")
        (mkToken false (str "7") None None) nl ] in
  parse_stats_output (Report.report_text lines)
  = Ok [ (str "Pixel sum", PyFloat (Finite 300));
         (str "Pixel mean", PyFloat (Finite (-1 # 2)));
         (str "Total number of pixels", PyInt 64) ].
Proof.
  cbv zeta.
  apply (report_parses
    [ Report.mkLine (str "Total number of pixels") Count (str " ") (str " ")
        (mkToken false (str "64") None None) ["010"];
      Report.mkLine (str "Pixel mean") General (str "  ") (str " ")
        (mkToken true (str "0") (Some (str "5")) None) ["010"];
      Report.mkLine (str "Pixel sum") General (str " ") (str "  ")
        (mkToken false (str "3") None (Some (mkExpo "e" [] (str "2"))))
        ["010"];
      Report.mkLine (str "Pixel mean") General (str " ") (str " ")
        (mkToken false (str "7") None None) ["010"] ]).
  reflexivity.
Defined.
